(** * prep_combined_tables_ranger.py: the pair-join reporter

    A shallow embedding of [scripts/cooccur_phylo_hgt/prep_combined_tables_ranger.py]
    and the properties its specification states about it.

    The script loads four tables with pandas (co-occurrence measures, tip
    distances, taxonomic ranks, pairwise HGT tallies), and for every key
    of the HGT table prints one tab-delimited line joining the four.

    Modelling choices.
    - A Python [str] is a [string]; comparison is the lexicographic order
      on character codes, as Python's.
    - A table cell is the text Python prints for it ([str(x)] or the
      f-string rendering).  A missing cell is the float NaN, the one
      value that prints as "nan" (pandas reads the text "nan" itself as
      missing): it differs from every cell under [!=], itself included,
      and it is no [str] where the script needs one.  Whether pandas read
      a column of texts as numbers is not modelled: the cells of the
      taxon and species columns are taken to be texts or missing.
    - A DataFrame is the list of its rows in file order, each row paired
      with its index label and carrying its column labels.  A label can
      occur more than once in an index, and [.loc] then returns a
      sub-table instead of a scalar.  On the taxonomic table the
      comparison of line 92 raises on it, and so does [sorted] at line 55
      on a column label that line 53 repeated.  On the other tables the
      script prints the text of the sub-table and goes on; that text is
      not modelled, and the script is followed up to that print only:
      the modelled run stops there, in [Repeated].  The properties of
      whole runs that depend on it are stated for [unique_labels].
    - Each row carries the column labels, so lines 52-55 are followed
      row by row; a co-occurrence table without rows has an empty index.
    - [sys.exit(msg)] and an uncaught exception end the run; standard
      output is the list of lines printed until then. *)

From Stdlib Require Import List Bool Arith Lia Ascii String.
Import ListNotations.
Local Open Scope list_scope.
Local Open Scope string_scope.

(** ** Python strings *)

Module Py.

(** [s.split(sep)] for a one-character separator: never the empty list. *)
Fixpoint split (sep : ascii) (s : string) : list string :=
  match s with
  | EmptyString => [EmptyString]
  | String c s' =>
      if Ascii.eqb c sep then EmptyString :: split sep s'
      else match split sep s' with
           | [] => [String c EmptyString]
           | w :: ws => String c w :: ws
           end
  end.

(** [sep.join(l)]. *)
Definition join (sep : string) (l : list string) : string := String.concat sep l.

(** [sorted(l)] on strings: a stable insertion sort by [<]. *)
Fixpoint insert (x : string) (l : list string) : list string :=
  match l with
  | [] => [x]
  | y :: l' => if String.ltb y x then y :: insert x l' else x :: l
  end.

Definition sorted (l : list string) : list string := fold_right insert [] l.

(** [c in s] for a character. *)
Fixpoint has_char (c : ascii) (s : string) : bool :=
  match s with
  | EmptyString => false
  | String d s' => Ascii.eqb d c || has_char c s'
  end.

(** [s.count(c)] for a character. *)
Fixpoint count (c : ascii) (s : string) : nat :=
  match s with
  | EmptyString => 0
  | String d s' => (if Ascii.eqb d c then 1 else 0) + count c s'
  end.

End Py.

Definition comma : ascii := ","%char.
Definition tab : string := String (ascii_of_nat 9) EmptyString.

(** ** pandas tables *)

(** A row: column label and printed cell, in column order. *)
Definition row := list (string * string).

(** [r[col]]: [None] stands for the [KeyError] pandas raises. *)
Fixpoint row_get (col : string) (r : row) : option string :=
  match r with
  | [] => None
  | (c, v) :: r' => if String.eqb c col then Some v else row_get col r'
  end.

(** A DataFrame with its index: (label, row) in file order. *)
Definition frame := list (string * row).

Definition index (f : frame) : list string := map fst f.

(** [label in f.index]. *)
Definition in_index (label : string) (f : frame) : bool :=
  existsb (String.eqb label) (index f).

(** The rows [f.loc[label]] selects. *)
Definition rows_at (label : string) (f : frame) : list row :=
  map snd (filter (fun e => String.eqb (fst e) label) f).

(** ** Ways a run ends early *)

(** One constructor per [sys.exit] call of [main], plus the ends that
    come from pandas. *)
Inductive failure : Type :=
| BadFormat (key : string)          (* line 64 *)
| NoMeasures                        (* line 69 *)
| NotStrainLevel (key : string)     (* line 96 *)
| NotInHgt (key : string)           (* line 99 *)
| ReverseInHgt (key : string)       (* line 101 *)
| ReverseInCooccur (key : string)   (* line 113 *)
| KeyError                          (* uncaught: a label or column is missing *)
| Repeated (label : string)         (* a sub-table where a scalar is needed *)
| IndexError                        (* uncaught: line 52, no second column *)
| TypeError.                        (* uncaught: a missing cell used as a str *)

(** The text handed to [sys.exit]. *)
Definition message (f : failure) : option string :=
  match f with
  | BadFormat k => Some ("Error - Taxa combo not in correct format: " ++ k)
  | NoMeasures => Some "No co-occurrence measures provided."
  | NotStrainLevel k => Some ("Error - Taxa combo not at strain level: " ++ k ++ ".")
  | NotInHgt k => Some ("Error - Taxa_combo not found in HGT table: " ++ k ++ ".")
  | ReverseInHgt k => Some ("Error - Reverse taxa_combo found in HGT table: " ++ k ++ ".")
  | ReverseInCooccur k =>
      Some ("Error - Reverse taxa_combo found in co-occurrence table: " ++ k ++ ".")
  | KeyError => None
  | Repeated _ => None
  | IndexError => None
  | TypeError => None
  end.

(** The specification's error taxonomy over those ends. *)
Definition FormatError (f : failure) : Prop := exists k, f = BadFormat k.

Definition ConsistencyError (f : failure) : Prop :=
  exists k, f = NotStrainLevel k \/ f = ReverseInHgt k \/ f = ReverseInCooccur k.

(** The ends that are no [sys.exit] of the script. *)
Definition uncaught (f : failure) : Prop :=
  f = KeyError \/ f = IndexError \/ f = TypeError \/ exists l, f = Repeated l.

Inductive outcome (A : Type) : Type :=
| Ok (a : A)
| Fail (f : failure).
Arguments Ok {A} a.
Arguments Fail {A} f.

Definition bind {A B} (m : outcome A) (k : A -> outcome B) : outcome B :=
  match m with
  | Ok a => k a
  | Fail f => Fail f
  end.

Notation "x <- m ;; k" := (bind m (fun x => k))
  (at level 61, m at next level, right associativity).

Definition of_option {A} (o : option A) : outcome A :=
  match o with
  | Some a => Ok a
  | None => Fail KeyError
  end.

Fixpoint mapM {A B} (f : A -> outcome B) (l : list A) : outcome (list B) :=
  match l with
  | [] => Ok []
  | a :: l' => b <- f a ;; bs <- mapM f l' ;; Ok (b :: bs)
  end.

(** What [.loc] hands back: a scalar, or a sub-table when the row label
    is repeated. *)
Inductive cell : Type :=
| Scalar (v : string)
| SubTable (label : string).

(** The text of a looked-up object where the script prints it.  The
    text pandas gives a sub-table is not modelled: the modelled run stops
    at that print. *)
Definition scalar (c : cell) : outcome string :=
  match c with
  | Scalar v => Ok v
  | SubTable l => Fail (Repeated l)
  end.

(** [f.loc[label, col]]. *)
Definition loc (f : frame) (label col : string) : outcome cell :=
  match rows_at label f with
  | [] => Fail KeyError
  | [r] => v <- of_option (row_get col r) ;; Ok (Scalar v)
  | r :: _ => _ <- of_option (row_get col r) ;; Ok (SubTable label)
  end.

(** [f.loc[label, cols]]: the selected columns of every row with that label. *)
Definition loc_cols (f : frame) (label : string) (cols : list string)
  : outcome (list (list string)) :=
  match rows_at label f with
  | [] => Fail KeyError
  | rs => mapM (fun r => mapM (fun c => of_option (row_get c r)) cols) rs
  end.

(** ** The script *)

Record tables : Type := {
  cooccur_rows : list row;   (* --cooccur_tab, read with index_col=None *)
  tip_dist : frame;          (* --tip_distances, index_col=0 *)
  taxa_tab : frame;          (* --taxa_tab, index_col=1 *)
  hgt_tab : frame            (* --hgt_tab, index_col=0 *)
}.

(** A missing cell: the float NaN. *)
Definition is_nan (v : string) : bool := String.eqb v "nan".

(** [x != y] on two cells. *)
Definition differ (x y : string) : bool :=
  is_nan x || is_nan y || negb (String.eqb x y).

(** Lines 52-53: the legacy names of the first two columns.  [columns[0]]
    is read first, and [columns[1]] only when the first is "taxoni". *)
Definition rename_legacy (r : row) : outcome row :=
  match r with
  | [] => Fail IndexError
  | (c0, v0) :: rest =>
      if String.eqb c0 "taxoni" then
        match rest with
        | [] => Fail IndexError
        | (c1, v1) :: rest' =>
            if String.eqb c1 "taxonj"
            then Ok (("taxon_i", v0) :: ("taxon_j", v1) :: rest')
            else Ok r
        end
      else Ok r
  end.

(** The cells of a row under one column label: more than one when line
    53 gave two columns the same label. *)
Definition row_all (col : string) (r : row) : list string :=
  map snd (filter (fun e => String.eqb (fst e) col) r).

(** Line 55, the lambda: [",".join(sorted([taxon_i, taxon_j]))]. *)
Definition canonical_key (taxon_i taxon_j : string) : string :=
  Py.join "," (Py.sorted [taxon_i; taxon_j]).

(** Lines 52-55 on one row: its label in the index.  Both cells are
    read before [sorted] compares them; a repeated column gives a Series
    there, and a missing cell is no [str] for [sorted] and [join]. *)
Definition cooccur_key (r0 : row) : outcome (string * row) :=
  r <- rename_legacy r0 ;;
  match row_all "taxon_i" r, row_all "taxon_j" r with
  | [], _ => Fail KeyError
  | _, [] => Fail KeyError
  | [taxon_i], [taxon_j] =>
      if is_nan taxon_i || is_nan taxon_j then Fail TypeError
      else Ok (canonical_key taxon_i taxon_j, r)
  | [_], _ => Fail (Repeated "taxon_j")
  | _, _ => Fail (Repeated "taxon_i")
  end.

(** Line 55: the co-occurrence table indexed by canonical key. *)
Definition index_cooccur (rows : list row) : outcome frame := mapM cooccur_key rows.

(** Lines 60-65: every key is split before anything is printed. *)
Fixpoint taxa_combinations (keys : list string) : outcome (list (string * string)) :=
  match keys with
  | [] => Ok []
  | taxa_combo_orig :: keys' =>
      match Py.split comma taxa_combo_orig with
      | [taxon_i; taxon_j] =>
          rest <- taxa_combinations keys' ;; Ok ((taxon_i, taxon_j) :: rest)
      | _ => Fail (BadFormat taxa_combo_orig)
      end
  end.

(** Lines 70-73. *)
Definition headerline (measures : list string) : string :=
  Py.join tab
    (List.app ["taxa_combo"; "taxon_i"; "taxon_j"; "tip_dist"; "species";
               "ranger_hgt_tallies"]
              (map (fun measure => "cooccur_" ++ measure) measures)).

(** Lines 81-85. *)
Definition tip_dist_val (tip : frame) (taxon_i taxon_j : string) : outcome cell :=
  if negb (in_index taxon_i tip) || negb (in_index taxon_j tip)
  then Ok (Scalar "NA")
  else loc tip taxon_i taxon_j.

Definition tax_levels : list string :=
  ["Domain"; "Phylum"; "Class"; "Order"; "Family"; "Genus"; "Species"; "Strain"].

(** Lines 87, 91-94: the first level at which the two vectors differ. *)
Fixpoint first_diff (levels taxon_i_levels taxon_j_levels : list string) : string :=
  match levels, taxon_i_levels, taxon_j_levels with
  | l :: ls, x :: xs, y :: ys =>
      if differ x y then l else first_diff ls xs ys
  | _, _, _ => "NO_DIFF_FOUND"
  end.

(** Lines 88-96. *)
Definition strain_check (taxa : frame) (taxon_i taxon_j taxa_combo : string)
  : outcome unit :=
  taxon_i_levels <- loc_cols taxa taxon_i tax_levels ;;
  taxon_j_levels <- loc_cols taxa taxon_j tax_levels ;;
  match taxon_i_levels, taxon_j_levels with
  | [vi], [vj] =>
      if String.eqb (first_diff tax_levels vi vj) "Strain" then Ok tt
      else Fail (NotStrainLevel taxa_combo)
  | [_], _ => Fail (Repeated taxon_j)
  | _, _ => Fail (Repeated taxon_i)
  end.

(** Lines 98-101. *)
Definition hgt_check (hgt : frame) (taxa_combo reverse_taxa_combo : string)
  : outcome unit :=
  if negb (in_index taxa_combo hgt) then Fail (NotInHgt taxa_combo)
  else if in_index reverse_taxa_combo hgt then Fail (ReverseInHgt reverse_taxa_combo)
  else Ok tt.

(** Lines 107-115, over the indexed co-occurrence table. *)
Definition cooccur_values (cooccur : frame) (measures : list string)
           (taxa_combo reverse_taxa_combo : string) : outcome (list string) :=
  if in_index taxa_combo cooccur then
    mapM (fun measure => c <- loc cooccur taxa_combo measure ;; scalar c) measures
  else if in_index reverse_taxa_combo cooccur then
    Fail (ReverseInCooccur reverse_taxa_combo)
  else Ok (repeat "NA" (List.length measures)).

(** Lines 76-119: one iteration of the main loop; the line it prints. *)
Definition process_pair (cooccur : frame) (T : tables) (measures : list string)
           (taxa_pair : string * string) : outcome string :=
  let taxon_i := fst taxa_pair in
  let taxon_j := snd taxa_pair in
  let taxa_combo := taxon_i ++ "," ++ taxon_j in
  let reverse_taxa_combo := taxon_j ++ "," ++ taxon_i in
  tip_dist_cell <- tip_dist_val (tip_dist T) taxon_i taxon_j ;;
  _ <- strain_check (taxa_tab T) taxon_i taxon_j taxa_combo ;;
  _ <- hgt_check (hgt_tab T) taxa_combo reverse_taxa_combo ;;
  hgt_count_cell <- loc (hgt_tab T) taxa_combo "hgt_count" ;;
  species_cell <- loc (hgt_tab T) taxa_combo "species" ;;
  cooccur_vals <- cooccur_values cooccur measures taxa_combo reverse_taxa_combo ;;
  species <- scalar species_cell ;;
  _ <- (if is_nan species then Fail TypeError else Ok tt) ;;
  hgt_count <- scalar hgt_count_cell ;;
  let hgt_cols := species ++ tab ++ hgt_count in
  let cooccur_cols := Py.join tab cooccur_vals in
  tip <- scalar tip_dist_cell ;;
  Ok (taxa_combo ++ tab ++ taxon_i ++ tab ++ taxon_j ++ tab ++ tip ++ tab
      ++ hgt_cols ++ tab ++ cooccur_cols).

(** Lines 75-119: the main loop; lines printed, and how it ended
    ([None]: all pairs done). *)
Fixpoint emit_rows (cooccur : frame) (T : tables) (measures : list string)
         (pairs : list (string * string)) : list string * option failure :=
  match pairs with
  | [] => ([], None)
  | p :: pairs' =>
      match process_pair cooccur T measures p with
      | Ok line =>
          let (out, st) := emit_rows cooccur T measures pairs' in (line :: out, st)
      | Fail f => ([], Some f)
      end
  end.

(** [main]: standard output and the way the run ended ([None]: exit 0). *)
Definition main (cooccur_measure : string) (T : tables)
  : list string * option failure :=
  match index_cooccur (cooccur_rows T) with
  | Fail f => ([], Some f)
  | Ok cooccur =>
      match taxa_combinations (index (hgt_tab T)) with
      | Fail f => ([], Some f)
      | Ok pairs =>
          let measures := Py.split comma cooccur_measure in
          if Nat.eqb (List.length measures) 0 then ([], Some NoMeasures)
          else
            let (out, st) := emit_rows cooccur T measures pairs in
            (headerline measures :: out, st)
      end
  end.

(** ** The scenario of the specification *)

Module Scenario.

Definition taxa_row (strain : string) : row :=
  [("Domain", "d"); ("Phylum", "p"); ("Class", "c"); ("Order", "o");
   ("Family", "f"); ("Genus", "g"); ("Species", "sp1"); ("Strain", strain)].

Definition T : tables := {|
  cooccur_rows := [[("taxon_i", "X"); ("taxon_j", "Y"); ("jaccard", "0.42")]];
  tip_dist := [("X", [("X", "0.0"); ("Y", "0.13")]);
               ("Y", [("X", "0.13"); ("Y", "0.0")])];
  taxa_tab := [("X", taxa_row "sX"); ("Y", taxa_row "sY")];
  hgt_tab := [("X,Y", [("species", "sp1"); ("hgt_count", "5")])]
|}.

End Scenario.

(** ** The specification's words, for comparison *)

(** The specification's notion of a valid key: exactly two parts, neither
    of them empty. *)
Definition two_nonempty_parts (k : string) : Prop :=
  exists i j, Py.split comma k = [i; j] /\ i <> "" /\ j <> "".

(** The specification's reading of the lookup: the cell at [i, j], and
    the cell at [j, i] when that one cannot be read. *)
Definition tip_dist_either_direction (tip : frame) (taxon_i taxon_j : string)
  : outcome cell :=
  if negb (in_index taxon_i tip) || negb (in_index taxon_j tip)
  then Ok (Scalar "NA")
  else match loc tip taxon_i taxon_j with
       | Ok c => Ok c
       | Fail _ => loc tip taxon_j taxon_i
       end.

(** The specification's reading of the lookup: under the canonical key of
    the pair first, under the canonical pair reversed next. *)
Definition cooccur_values_canonical (cooccur : frame) (measures : list string)
           (taxon_i taxon_j : string) : outcome (list string) :=
  cooccur_values cooccur measures
                 (canonical_key taxon_i taxon_j)
                 (Py.join "," (rev (Py.sorted [taxon_i; taxon_j]))).

(** Under [!=] the two vectors differ at none of the seven ranks before
    Strain and differ at Strain. *)
Definition first_difference_at_strain (vi vj : list string) : Prop :=
  (forall n, n < 7 -> differ (nth n vi "") (nth n vj "") = false)
  /\ differ (nth 7 vi "") (nth 7 vj "") = true.

(** ** Variations of the scenario *)

Module EmptyPart.

(** The scenario's tables, with the HGT key [",Y"]. *)
Definition T : tables := {|
  cooccur_rows := cooccur_rows Scenario.T;
  tip_dist := tip_dist Scenario.T;
  taxa_tab := taxa_tab Scenario.T;
  hgt_tab := [(",Y", [("species", "sp1"); ("hgt_count", "5")])]
|}.

End EmptyPart.

Module ThreeParts.

Definition T : tables := {|
  cooccur_rows := cooccur_rows Scenario.T;
  tip_dist := tip_dist Scenario.T;
  taxa_tab := taxa_tab Scenario.T;
  hgt_tab := [("X,Y", [("species", "sp1"); ("hgt_count", "5")]);
              ("X,Y,Z", [("species", "sp1"); ("hgt_count", "2")])]
|}.

End ThreeParts.

Module LowerTriangle.

(** Rows X and Y, one column X: the distance of the pair is stored at
    row Y, column X only. *)
Definition T : tables := {|
  cooccur_rows := cooccur_rows Scenario.T;
  tip_dist := [("X", [("X", "0.0")]); ("Y", [("X", "0.13")])];
  taxa_tab := taxa_tab Scenario.T;
  hgt_tab := hgt_tab Scenario.T
|}.

End LowerTriangle.

Module NoTipRow.

(** The scenario with X absent from the tip-distance table. *)
Definition T : tables := {|
  cooccur_rows := cooccur_rows Scenario.T;
  tip_dist := [("Y", [("X", "0.13"); ("Y", "0.0")])];
  taxa_tab := taxa_tab Scenario.T;
  hgt_tab := hgt_tab Scenario.T
|}.

End NoTipRow.

Module SpeciesDiffer.

(** The scenario with Y in another species than X. *)
Definition T : tables := {|
  cooccur_rows := cooccur_rows Scenario.T;
  tip_dist := tip_dist Scenario.T;
  taxa_tab := [("X", Scenario.taxa_row "sX");
               ("Y", [("Domain", "d"); ("Phylum", "p"); ("Class", "c"); ("Order", "o");
                      ("Family", "f"); ("Genus", "g"); ("Species", "sp2");
                      ("Strain", "sY")])];
  hgt_tab := hgt_tab Scenario.T
|}.

Definition cooccur : frame :=
  [("X,Y", [("taxon_i", "X"); ("taxon_j", "Y"); ("jaccard", "0.42")])].

End SpeciesDiffer.

Module MissingStrain.

(** The scenario with the Strain cell of X and of Y left empty. *)
Definition T : tables := {|
  cooccur_rows := cooccur_rows Scenario.T;
  tip_dist := tip_dist Scenario.T;
  taxa_tab := [("X", Scenario.taxa_row "nan"); ("Y", Scenario.taxa_row "nan")];
  hgt_tab := hgt_tab Scenario.T
|}.

End MissingStrain.

Module MissingFamily.

(** The scenario with the Family cell of X and of Y left empty. *)
Definition taxa_row (strain : string) : row :=
  [("Domain", "d"); ("Phylum", "p"); ("Class", "c"); ("Order", "o");
   ("Family", "nan"); ("Genus", "g"); ("Species", "sp1"); ("Strain", strain)].

Definition T : tables := {|
  cooccur_rows := cooccur_rows Scenario.T;
  tip_dist := tip_dist Scenario.T;
  taxa_tab := [("X", taxa_row "sX"); ("Y", taxa_row "sY")];
  hgt_tab := hgt_tab Scenario.T
|}.

End MissingFamily.

Module NoTaxaRow.

(** The scenario with X absent from the taxonomic table. *)
Definition T : tables := {|
  cooccur_rows := cooccur_rows Scenario.T;
  tip_dist := tip_dist Scenario.T;
  taxa_tab := [("Y", Scenario.taxa_row "sY")];
  hgt_tab := hgt_tab Scenario.T
|}.

End NoTaxaRow.

Module BothOrders.

(** The scenario with the pair listed in both orders in the HGT table. *)
Definition T : tables := {|
  cooccur_rows := cooccur_rows Scenario.T;
  tip_dist := tip_dist Scenario.T;
  taxa_tab := taxa_tab Scenario.T;
  hgt_tab := [("X,Y", [("species", "sp1"); ("hgt_count", "5")]);
              ("Y,X", [("species", "sp1"); ("hgt_count", "5")])]
|}.

Definition cooccur : frame :=
  [("X,Y", [("taxon_i", "X"); ("taxon_j", "Y"); ("jaccard", "0.42")])].

Definition ranks (strain : string) : list string :=
  ["d"; "p"; "c"; "o"; "f"; "g"; "sp1"; strain].

End BothOrders.

Module BothOrdersNoTaxon.

(** The pair in both orders in the HGT table, and X no row of the
    taxonomic table. *)
Definition T : tables := {|
  cooccur_rows := cooccur_rows Scenario.T;
  tip_dist := tip_dist Scenario.T;
  taxa_tab := [("Y", Scenario.taxa_row "sY")];
  hgt_tab := [("X,Y", [("species", "sp1"); ("hgt_count", "5")]);
              ("Y,X", [("species", "sp1"); ("hgt_count", "5")])]
|}.

End BothOrdersNoTaxon.

Module SelfPairNoTaxon.

(** A taxon paired with itself in both tables, and no row of the
    taxonomic table. *)
Definition T : tables := {|
  cooccur_rows := [[("taxon_i", "X"); ("taxon_j", "X"); ("jaccard", "1.0")]];
  tip_dist := tip_dist Scenario.T;
  taxa_tab := [("Y", Scenario.taxa_row "sY")];
  hgt_tab := [("X,X", [("species", "sp1"); ("hgt_count", "5")])]
|}.

Definition cooccur : frame :=
  [("X,X", [("taxon_i", "X"); ("taxon_j", "X"); ("jaccard", "1.0")])].

End SelfPairNoTaxon.

Module SelfPair.

(** A taxon paired with itself in both tables. *)
Definition T : tables := {|
  cooccur_rows := [[("taxon_i", "X"); ("taxon_j", "X"); ("jaccard", "1.0")]];
  tip_dist := tip_dist Scenario.T;
  taxa_tab := taxa_tab Scenario.T;
  hgt_tab := [("X,X", [("species", "sp1"); ("hgt_count", "5")])]
|}.

Definition cooccur : frame :=
  [("X,X", [("taxon_i", "X"); ("taxon_j", "X"); ("jaccard", "1.0")])].

Definition ranks : list string := ["d"; "p"; "c"; "o"; "f"; "g"; "sp1"; "sX"].

End SelfPair.

Module ReversedKey.

(** The scenario with the HGT key written Y,X. *)
Definition T : tables := {|
  cooccur_rows := cooccur_rows Scenario.T;
  tip_dist := tip_dist Scenario.T;
  taxa_tab := taxa_tab Scenario.T;
  hgt_tab := [("Y,X", [("species", "sp1"); ("hgt_count", "5")])]
|}.

Definition cooccur : frame :=
  [("X,Y", [("taxon_i", "X"); ("taxon_j", "Y"); ("jaccard", "0.42")])].

End ReversedKey.

(** ** Tables for the further properties *)

(** A co-occurrence row under the legacy and under the current names of
    its first two columns. *)
Definition legacy_row (e : string * string * row) : row :=
  ("taxoni", fst (fst e)) :: ("taxonj", snd (fst e)) :: snd e.

Definition current_row (e : string * string * row) : row :=
  ("taxon_i", fst (fst e)) :: ("taxon_j", snd (fst e)) :: snd e.

Module OtherColumns.

(** The scenario with a co-occurrence table whose taxon columns have
    other names. *)
Definition T : tables := {|
  cooccur_rows := [[("mag_a", "X"); ("mag_b", "Y"); ("jaccard", "0.42")]];
  tip_dist := tip_dist Scenario.T;
  taxa_tab := taxa_tab Scenario.T;
  hgt_tab := hgt_tab Scenario.T
|}.

End OtherColumns.

Module NoSpecies.

(** The scenario with an HGT table without the species column. *)
Definition T : tables := {|
  cooccur_rows := cooccur_rows Scenario.T;
  tip_dist := tip_dist Scenario.T;
  taxa_tab := taxa_tab Scenario.T;
  hgt_tab := [("X,Y", [("hgt_count", "5")])]
|}.

Definition cooccur : frame :=
  [("X,Y", [("taxon_i", "X"); ("taxon_j", "Y"); ("jaccard", "0.42")])].

End NoSpecies.

(** The tab as a character, and texts without one. *)
Definition tab_char : ascii := ascii_of_nat 9.

Definition tab_free (s : string) : Prop := Py.has_char tab_char s = false.

Definition tab_free_row (r : row) : Prop := Forall (fun cv => tab_free (snd cv)) r.

Definition tab_free_frame (f : frame) : Prop :=
  Forall (fun e => tab_free (fst e) /\ tab_free_row (snd e)) f.

(** Tables as a tab-separated file gives them: no label and no cell
    holds a tab. *)
Definition tab_free_tables (T : tables) : Prop :=
  tab_free_frame (tip_dist T) /\ tab_free_frame (hgt_tab T)
  /\ Forall tab_free_row (cooccur_rows T).

(** No row label of the tip-distance table, no key of the HGT table and
    no label of the co-occurrence index occurs twice: the tables on
    which each print of the script is one line of scalars. *)
Definition unique_labels (T : tables) : Prop :=
  NoDup (index (tip_dist T)) /\ NoDup (index (hgt_tab T))
  /\ forall cooccur, index_cooccur (cooccur_rows T) = Ok cooccur ->
                     NoDup (index cooccur).

(** ** Facts about [split], [join] and [sorted] *)

Section SplitJoin.

Variable sep : ascii.

Let sep_str : string := String sep EmptyString.

Lemma split_not_nil (s : string) : Py.split sep s <> [].
Proof.
  destruct s as [|c s]; simpl; [discriminate|].
  destruct (Ascii.eqb c sep); [discriminate|].
  destruct (Py.split sep s); discriminate.
Qed.

Lemma split_cons (c : ascii) (s : string) :
  Ascii.eqb c sep = false ->
  exists w ws, Py.split sep s = w :: ws /\ Py.split sep (String c s) = String c w :: ws.
Proof.
  intros Hc. simpl. rewrite Hc.
  destruct (Py.split sep s) as [|w ws] eqn:E.
  - now apply split_not_nil in E.
  - now exists w, ws.
Qed.

(** Joining what a split produced gives the string back. *)
Lemma join_split (s : string) : Py.join sep_str (Py.split sep s) = s.
Proof.
  unfold Py.join. induction s as [|c s IH]; [reflexivity|].
  destruct (Ascii.eqb c sep) eqn:Hc.
  - simpl. rewrite Hc. apply Ascii.eqb_eq in Hc. subst c.
    destruct (Py.split sep s) as [|w ws] eqn:E; [now apply split_not_nil in E|].
    simpl in *. now rewrite IH.
  - destruct (split_cons c s Hc) as (w & ws & E & E'). rewrite E'. rewrite E in IH.
    destruct ws; simpl in *; now rewrite <- IH.
Qed.

(** No part of a split holds the separator. *)
Lemma split_parts_clean (s : string) :
  Forall (fun w => Py.has_char sep w = false) (Py.split sep s).
Proof.
  induction s as [|c s IH]; [now repeat constructor|].
  destruct (Ascii.eqb c sep) eqn:Hc.
  - simpl. rewrite Hc. now constructor.
  - destruct (split_cons c s Hc) as (w & ws & E & E'). rewrite E'. rewrite E in IH.
    inversion IH; subst. constructor; [|assumption].
    simpl. now rewrite Hc.
Qed.

Lemma split_clean (s : string) : Py.has_char sep s = false -> Py.split sep s = [s].
Proof.
  induction s as [|c s IH]; [reflexivity|]. simpl.
  intros H. apply orb_false_iff in H as [Hc Hs]. rewrite Hc, (IH Hs). reflexivity.
Qed.

(** Splitting distributes over a separator in the middle. *)
Lemma split_app (x y : string) :
  Py.split sep (x ++ String sep y) = (Py.split sep x ++ Py.split sep y)%list.
Proof.
  induction x as [|c x IH].
  - simpl. now rewrite Ascii.eqb_refl.
  - destruct (Ascii.eqb c sep) eqn:Hc.
    + simpl. rewrite Hc. now rewrite IH.
    + destruct (split_cons c x Hc) as (w & ws & E & E').
      rewrite E'. change (String c x ++ String sep y) with (String c (x ++ String sep y)).
      simpl. rewrite Hc, IH, E. reflexivity.
Qed.

(** A string with exactly two parts is those parts around one separator. *)
Lemma split_two (k a b : string) :
  Py.split sep k = [a; b] ->
  k = a ++ String sep b /\ Py.has_char sep a = false /\ Py.has_char sep b = false.
Proof.
  intros H. pose proof (join_split k) as J. pose proof (split_parts_clean k) as C.
  rewrite H in J, C. apply Forall_cons_iff in C as [Ha C].
  apply Forall_cons_iff in C as [Hb _].
  split; [now rewrite <- J | now split].
Qed.

Lemma split_pair (a b : string) :
  Py.has_char sep a = false -> Py.has_char sep b = false ->
  Py.split sep (a ++ String sep b) = [a; b].
Proof.
  intros Ha Hb. now rewrite split_app, (split_clean _ Ha), (split_clean _ Hb).
Qed.

(** Two strings around one separator, read back: if the whole has exactly
    two parts, they are the two strings. *)
Lemma around_sep_inj (x y a b : string) :
  x ++ String sep y = a ++ String sep b ->
  Py.has_char sep a = false -> Py.has_char sep b = false ->
  x = a /\ y = b.
Proof.
  intros E Ha Hb.
  assert (S : (Py.split sep x ++ Py.split sep y)%list = [a; b])
    by now rewrite <- split_app, E, split_pair.
  pose proof (join_split x) as Jx. pose proof (join_split y) as Jy.
  destruct (Py.split sep x) as [|x1 [|x2 xs]] eqn:Ex;
    destruct (Py.split sep y) as [|y1 [|y2 ys]] eqn:Ey;
    try (now apply split_not_nil in Ex); try (now apply split_not_nil in Ey);
    simpl in S; try discriminate S;
    try (exfalso; apply (f_equal (@List.length string)) in S; simpl in S;
         rewrite ?length_app in S; simpl in S; lia).
  injection S as -> ->. simpl in Jx, Jy. now split.
Qed.

End SplitJoin.

Section Sorted.

Lemma ltb_asym (s t : string) : String.ltb s t = true -> String.ltb t s = false.
Proof.
  unfold String.ltb. rewrite (String.compare_antisym t s).
  destruct (String.compare s t); simpl; congruence.
Qed.

Lemma ltb_total (s t : string) :
  String.ltb s t = false -> String.ltb t s = false -> s = t.
Proof.
  unfold String.ltb. rewrite (String.compare_antisym t s).
  destruct (String.compare s t) eqn:E; simpl; try congruence.
  intros _ _. now apply String.compare_eq_iff.
Qed.

(** [sorted] on two strings: the smaller first, the given order on a tie. *)
Lemma sorted_two (a b : string) :
  Py.sorted [a; b] = if String.ltb b a then [b; a] else [a; b].
Proof. reflexivity. Qed.

Lemma sorted_two_comm (a b : string) : Py.sorted [a; b] = Py.sorted [b; a].
Proof.
  rewrite !sorted_two.
  destruct (String.ltb b a) eqn:Hba, (String.ltb a b) eqn:Hab; try reflexivity.
  - apply ltb_asym in Hba. congruence.
  - now rewrite (ltb_total _ _ Hab Hba).
Qed.

(** The result is in order: its second string is not below its first. *)
Lemma sorted_two_ordered (p q a b : string) :
  Py.sorted [p; q] = [a; b] -> String.ltb b a = false.
Proof.
  rewrite sorted_two. destruct (String.ltb q p) eqn:H; intros E; injection E as <- <-.
  - now apply ltb_asym.
  - assumption.
Qed.

End Sorted.

(** ** Facts about tables and the error monad *)

Ltac bind_step H :=
  match type of H with
  | bind ?m _ = _ => let E := fresh "E" in destruct m eqn:E; simpl in H
  end.

Section MapM.

Context {A B : Type} (f : A -> outcome B).

Lemma mapM_ok (l : list A) (bs : list B) :
  mapM f l = Ok bs -> Forall2 (fun a b => f a = Ok b) l bs.
Proof.
  revert bs. induction l as [|a l IH]; simpl; intros bs H.
  - injection H as <-. constructor.
  - bind_step H; [|discriminate]. bind_step H; [|discriminate].
    injection H as <-. constructor; auto.
Qed.

Lemma mapM_fail (l : list A) (e : failure) :
  mapM f l = Fail e -> exists a, In a l /\ f a = Fail e.
Proof.
  induction l as [|a l IH]; simpl; intros H; [discriminate|].
  bind_step H.
  - bind_step H; [discriminate|]. injection H as <-.
    destruct (IH eq_refl) as (a' & Hin & Ha'). exists a'. auto.
  - injection H as <-. exists a. auto.
Qed.

End MapM.

Lemma in_index_In (label : string) (f : frame) :
  in_index label f = true <-> In label (index f).
Proof.
  unfold in_index. rewrite existsb_exists. split.
  - intros (x & Hin & Hx). apply String.eqb_eq in Hx. now subst.
  - intros H. exists label. split; [assumption | apply String.eqb_refl].
Qed.

Lemma rows_at_nil (label : string) (f : frame) :
  rows_at label f = [] <-> in_index label f = false.
Proof.
  unfold rows_at, in_index, index. induction f as [|[l r] f IH]; simpl; [tauto|].
  rewrite (String.eqb_sym label l). destruct (String.eqb l label); simpl; [|exact IH].
  split; discriminate.
Qed.

Lemma rows_at_in_index (label : string) (f : frame) (r : row) (rs : list row) :
  rows_at label f = r :: rs -> in_index label f = true.
Proof.
  intros H. destruct (in_index label f) eqn:E; [reflexivity|].
  apply rows_at_nil in E. congruence.
Qed.

(** What each step can end in. *)

Lemma of_option_fail {A} (o : option A) (e : failure) :
  of_option o = Fail e -> e = KeyError.
Proof. destruct o; simpl; congruence. Qed.

Lemma loc_fail (f : frame) (label col : string) (e : failure) :
  loc f label col = Fail e -> e = KeyError.
Proof.
  unfold loc. destruct (rows_at label f) as [|r [|r' rs]]; simpl.
  - congruence.
  - destruct (row_get col r); simpl; congruence.
  - destruct (row_get col r); simpl; congruence.
Qed.

Lemma loc_unique (f : frame) (label col : string) (r : row) :
  rows_at label f = [r] -> loc f label col = v <- of_option (row_get col r) ;; Ok (Scalar v).
Proof. unfold loc. now intros ->. Qed.

Lemma loc_cols_fail (f : frame) (label : string) (cols : list string) (e : failure) :
  loc_cols f label cols = Fail e -> e = KeyError.
Proof.
  unfold loc_cols. destruct (rows_at label f) as [|r rs]; [congruence|].
  intros H. apply mapM_fail in H as (r' & _ & H).
  apply mapM_fail in H as (c & _ & H). now apply of_option_fail in H.
Qed.

Lemma loc_cols_absent (f : frame) (label : string) (cols : list string) :
  in_index label f = false -> loc_cols f label cols = Fail KeyError.
Proof. intros H. apply rows_at_nil in H. unfold loc_cols. now rewrite H. Qed.

Lemma loc_cols_length (f : frame) (label : string) (cols v : list string)
      (vs : list (list string)) :
  loc_cols f label cols = Ok vs -> In v vs -> List.length v = List.length cols.
Proof.
  unfold loc_cols. intros H Hin.
  assert (M : exists rs, mapM (fun r => mapM (fun c => of_option (row_get c r)) cols) rs
                         = Ok vs)
    by (destruct (rows_at label f); [discriminate | eauto]).
  destruct M as (rs & M). apply mapM_ok in M.
  clear H. induction M as [|r v' rs vs' Hr _ IH]; [contradiction|].
  destruct Hin as [<- | Hin]; [|auto].
  apply mapM_ok in Hr. symmetry. eapply Forall2_length. exact Hr.
Qed.

Lemma scalar_fail (c : cell) (e : failure) :
  scalar c = Fail e -> exists l, e = Repeated l.
Proof. destruct c; simpl; [discriminate|]. intros H. injection H as <-. eauto. Qed.

Lemma tip_dist_val_fail (tip : frame) (i j : string) (e : failure) :
  tip_dist_val tip i j = Fail e -> e = KeyError.
Proof.
  unfold tip_dist_val. destruct (_ || _); [discriminate | apply loc_fail].
Qed.

Lemma strain_check_fail (taxa : frame) (i j key : string) (e : failure) :
  strain_check taxa i j key = Fail e ->
  e = KeyError \/ (exists l, e = Repeated l) \/ e = NotStrainLevel key.
Proof.
  unfold strain_check. intros H.
  bind_step H; [|injection H as <-; left; eapply loc_cols_fail; eassumption].
  bind_step H; [|injection H as <-; left; eapply loc_cols_fail; eassumption].
  destruct a as [|vi [|]], a0 as [|vj [|]];
    try (injection H as <-; right; left; eauto; fail).
  destruct (String.eqb _ _); [discriminate|]. injection H as <-. auto.
Qed.

Lemma hgt_check_fail (hgt : frame) (key rev : string) (e : failure) :
  hgt_check hgt key rev = Fail e ->
  (e = NotInHgt key /\ in_index key hgt = false)
  \/ (e = ReverseInHgt rev /\ in_index rev hgt = true).
Proof.
  unfold hgt_check. destruct (in_index key hgt); simpl.
  - destruct (in_index rev hgt); [|discriminate]. intros H. injection H as <-. auto.
  - intros H. injection H as <-. auto.
Qed.

Lemma cooccur_values_fail (cooccur : frame) (ms : list string) (key rev : string)
      (e : failure) :
  cooccur_values cooccur ms key rev = Fail e ->
  e = KeyError \/ (exists l, e = Repeated l)
  \/ (e = ReverseInCooccur rev /\ in_index key cooccur = false
      /\ in_index rev cooccur = true).
Proof.
  unfold cooccur_values. destruct (in_index key cooccur).
  - intros H. apply mapM_fail in H as (m & _ & H). bind_step H.
    + right; left. eapply scalar_fail; eassumption.
    + injection H as <-. left. eapply loc_fail; eassumption.
  - destruct (in_index rev cooccur); [|discriminate].
    intros H. injection H as <-. auto.
Qed.

(** ** Facts about one iteration and about the whole run *)

Section Run.

Variables (cooccur : frame) (T : tables) (measures : list string).

(** Every way an iteration can fail. *)
Lemma process_pair_fail (i j : string) (e : failure) :
  process_pair cooccur T measures (i, j) = Fail e ->
  uncaught e
  \/ e = NotStrainLevel (i ++ "," ++ j)
  \/ (e = NotInHgt (i ++ "," ++ j) /\ in_index (i ++ "," ++ j) (hgt_tab T) = false)
  \/ (e = ReverseInHgt (j ++ "," ++ i) /\ in_index (j ++ "," ++ i) (hgt_tab T) = true)
  \/ (e = ReverseInCooccur (j ++ "," ++ i)
      /\ in_index (i ++ "," ++ j) cooccur = false
      /\ in_index (j ++ "," ++ i) cooccur = true).
Proof.
  unfold process_pair, uncaught. cbn [fst snd]. intros H.
  bind_step H; [|injection H as <-; left; left; eapply tip_dist_val_fail; eassumption].
  bind_step H;
    [|injection H as <-; apply strain_check_fail in E0;
      destruct E0 as [-> | [(l & ->) | ->]]; eauto 6].
  bind_step H;
    [|injection H as <-; apply hgt_check_fail in E1; intuition].
  bind_step H; [|injection H as <-; left; left; eapply loc_fail; eassumption].
  bind_step H; [|injection H as <-; left; left; eapply loc_fail; eassumption].
  bind_step H;
    [|injection H as <-; apply cooccur_values_fail in E4;
      destruct E4 as [-> | [(l & ->) | E4]]; eauto 8].
  bind_step H;
    [|injection H as <-; apply scalar_fail in E5 as (l & ->); eauto 6].
  match type of H with
  | context [is_nan ?x] => destruct (is_nan x); simpl in H
  end; [injection H as <-; auto|].
  bind_step H;
    [|injection H as <-; apply scalar_fail in E6 as (l & ->); eauto 6].
  bind_step H; [discriminate|].
  injection H as <-. apply scalar_fail in E7 as (l & ->). eauto 6.
Qed.

(** An uncaught exception is none of the script's exits. *)
Lemma uncaught_no_message (e : failure) : uncaught e -> message e = None.
Proof. intros [-> | [-> | [-> | (l & ->)]]]; reflexivity. Qed.

(** The loop stops at the first pair that fails: it prints the lines of
    the pairs before it and nothing for it or after it. *)
Lemma emit_rows_shape (pairs : list (string * string)) :
  exists done rest,
    pairs = (done ++ rest)%list
    /\ Forall2 (fun p line => process_pair cooccur T measures p = Ok line)
               done (fst (emit_rows cooccur T measures pairs))
    /\ match snd (emit_rows cooccur T measures pairs) with
       | None => rest = []
       | Some e => exists p rest', rest = p :: rest'
                                   /\ process_pair cooccur T measures p = Fail e
       end.
Proof.
  induction pairs as [|p ps IH]; simpl.
  - exists [], []. repeat split. constructor.
  - destruct (process_pair cooccur T measures p) as [line|e] eqn:E.
    + destruct IH as (done & rest & -> & F & S).
      destruct (emit_rows cooccur T measures (done ++ rest)) as [out st]; simpl in *.
      exists (p :: done), rest. repeat split; [now constructor | exact S].
    + exists [], (p :: ps). simpl. repeat split; [constructor | eauto].
Qed.

Lemma emit_rows_fail (pairs : list (string * string)) (e : failure) :
  snd (emit_rows cooccur T measures pairs) = Some e ->
  exists p, In p pairs /\ process_pair cooccur T measures p = Fail e.
Proof.
  intros H. destruct (emit_rows_shape pairs) as (done & rest & -> & _ & S).
  rewrite H in S. destruct S as (p & rest' & -> & Hp).
  exists p. split; [apply in_or_app; right; now left | exact Hp].
Qed.

(** A pair that fails keeps the loop from finishing, and no line is
    printed for it: the lines printed are those of pairs before it. *)
Lemma emit_rows_blocked (pairs : list (string * string)) (p : string * string)
      (e : failure) :
  In p pairs -> process_pair cooccur T measures p = Fail e ->
  exists done e',
    snd (emit_rows cooccur T measures pairs) = Some e'
    /\ Forall2 (fun q line => process_pair cooccur T measures q = Ok line)
               done (fst (emit_rows cooccur T measures pairs))
    /\ ~ In p done.
Proof.
  intros Hin Hp. destruct (emit_rows_shape pairs) as (done & rest & -> & F & S).
  assert (Hdone : ~ In p done).
  { intros Hd. clear S Hin.
    induction F as [|q line qs ls Hq _ IH]; [contradiction|].
    destruct Hd as [-> | Hd]; [congruence | auto]. }
  destruct (snd (emit_rows cooccur T measures (done ++ rest))) as [e'|] eqn:Est.
  - exists done, e'. auto.
  - subst rest. rewrite app_nil_r in Hin. contradiction.
Qed.

End Run.

(** The pairs of [taxa_combinations] are the keys, split. *)
Lemma taxa_combinations_ok (keys : list string) (pairs : list (string * string)) :
  taxa_combinations keys = Ok pairs ->
  Forall2 (fun k p => Py.split comma k = [fst p; snd p]) keys pairs.
Proof.
  revert pairs. induction keys as [|k ks IH]; simpl; intros pairs H.
  - injection H as <-. constructor.
  - destruct (Py.split comma k) as [|a [|b [|c l]]] eqn:E; try discriminate.
    bind_step H; [|discriminate]. injection H as <-. constructor; auto.
Qed.

Lemma taxa_combinations_fail (keys : list string) (e : failure) :
  taxa_combinations keys = Fail e ->
  exists pre k post,
    keys = (pre ++ k :: post)%list
    /\ Forall (fun k' => List.length (Py.split comma k') = 2) pre
    /\ e = BadFormat k /\ List.length (Py.split comma k) <> 2.
Proof.
  induction keys as [|k ks IH]; simpl; intros H; [discriminate|].
  destruct (Py.split comma k) as [|a [|b [|c l]]] eqn:E;
    try (injection H as <-; exists [], k, ks; rewrite E; simpl;
         repeat split; auto; lia).
  bind_step H; [discriminate|]. injection H as <-.
  destruct (IH eq_refl) as (pre & k' & post & -> & Hpre & He & Hl).
  exists (k :: pre), k', post. repeat split; auto.
  constructor; [now rewrite E | exact Hpre].
Qed.

Lemma taxa_combinations_pair (keys : list string) (pairs : list (string * string))
      (p : string * string) :
  taxa_combinations keys = Ok pairs -> In p pairs ->
  exists k, In k keys /\ Py.split comma k = [fst p; snd p].
Proof.
  intros H Hin. apply taxa_combinations_ok in H.
  induction H as [|k q ks qs Hk _ IH]; [contradiction|].
  destruct Hin as [-> | Hin].
  - exists k. split; [now left | exact Hk].
  - destruct (IH Hin) as (k' & Hin' & Hk'). exists k'. split; [now right | exact Hk'].
Qed.

Lemma taxa_combinations_key (keys : list string) (pairs : list (string * string))
      (k : string) :
  taxa_combinations keys = Ok pairs -> In k keys ->
  exists i j, Py.split comma k = [i; j] /\ In (i, j) pairs.
Proof.
  intros H Hin. apply taxa_combinations_ok in H.
  induction H as [|k' [i j] ks qs Hk _ IH]; [contradiction|].
  destruct Hin as [-> | Hin].
  - exists i, j. split; [exact Hk | now left].
  - destruct (IH Hin) as (i' & j' & Hs & Hp). exists i', j'. split; [exact Hs | now right].
Qed.

Lemma rename_legacy_fail (r : row) (e : failure) :
  rename_legacy r = Fail e -> e = IndexError.
Proof.
  unfold rename_legacy. destruct r as [|[c0 v0] [|[c1 v1] rest]]; simpl.
  - congruence.
  - destruct (String.eqb c0 "taxoni"); congruence.
  - destruct (String.eqb c0 "taxoni"); [|discriminate].
    destruct (String.eqb c1 "taxonj"); discriminate.
Qed.

(** The label line 55 gives a row. *)
Lemma cooccur_key_ok (r0 r : row) (k : string) :
  cooccur_key r0 = Ok (k, r) ->
  exists p q,
    k = canonical_key p q /\ rename_legacy r0 = Ok r
    /\ row_all "taxon_i" r = [p] /\ row_all "taxon_j" r = [q]
    /\ is_nan p = false /\ is_nan q = false.
Proof.
  unfold cooccur_key. destruct (rename_legacy r0) as [r'|] eqn:ER; [|discriminate].
  cbn [bind].
  destruct (row_all "taxon_i" r') as [|p [|p' ps]] eqn:Ei;
    destruct (row_all "taxon_j" r') as [|q [|q' qs]] eqn:Ej; try discriminate.
  destruct (is_nan p) eqn:Np; [discriminate|].
  destruct (is_nan q) eqn:Nq; [discriminate|]. simpl.
  intros H. injection H as <- <-. exists p, q. auto 7.
Qed.

Lemma cooccur_key_fail (r0 : row) (e : failure) :
  cooccur_key r0 = Fail e -> uncaught e.
Proof.
  unfold cooccur_key, uncaught.
  destruct (rename_legacy r0) as [r'|e'] eqn:ER; cbn [bind];
    [|intros H; injection H as <-; right; left; eapply rename_legacy_fail; eassumption].
  destruct (row_all "taxon_i" r') as [|p [|p' ps]];
    destruct (row_all "taxon_j" r') as [|q [|q' qs]];
    try (intros H; injection H as <-; eauto 6; fail).
  destruct (is_nan p || is_nan q); [|discriminate].
  intros H; injection H as <-; auto.
Qed.

(** Every label of the indexed co-occurrence table is a canonical key. *)
Lemma index_cooccur_canonical (rows : list row) (cooccur : frame) (k : string) :
  index_cooccur rows = Ok cooccur -> in_index k cooccur = true ->
  exists p q, k = canonical_key p q.
Proof.
  intros H Hin. apply in_index_In in Hin.
  unfold index_cooccur in H.
  apply mapM_ok in H. unfold index in Hin. apply in_map_iff in Hin as ([k' r] & <- & Hin). simpl.
  induction H as [|r0 e rs es He _ IH]; [contradiction|].
  destruct Hin as [-> | Hin]; [|auto].
  apply cooccur_key_ok in He as (p & q & -> & _). eauto.
Qed.

(** A canonical key made of two comma-free names lists them in order. *)
Lemma canonical_key_ordered (p q a b : string) :
  canonical_key p q = a ++ "," ++ b ->
  Py.has_char comma a = false -> Py.has_char comma b = false ->
  String.ltb b a = false.
Proof.
  unfold canonical_key. intros E Ha Hb.
  destruct (Py.sorted [p; q]) as [|x [|y [|z l]]] eqn:S;
    try (rewrite sorted_two in S; destruct (String.ltb q p); discriminate S).
  unfold Py.join in E. simpl in E.
  apply (around_sep_inj comma) in E as [-> ->]; try assumption.
  eapply sorted_two_ordered. exact S.
Qed.


Lemma index_cooccur_fail (rows : list row) (e : failure) :
  index_cooccur rows = Fail e -> uncaught e.
Proof.
  unfold index_cooccur. intros H. apply mapM_fail in H as (r & _ & H).
  eapply cooccur_key_fail. exact H.
Qed.

(** An uncaught exception and a [sys.exit] are different ends. *)
Ltac not_uncaught H :=
  let l := fresh "l" in
  destruct H as [H | [H | [H | (l & H)]]]; discriminate H.

(** The keys the main loop works on are keys of the HGT index, rebuilt
    from their two parts. *)
Lemma rejoin (k i j : string) :
  Py.split comma k = [i; j] -> i ++ "," ++ j = k.
Proof. intros H. apply split_two in H as (-> & _). reflexivity. Qed.

Section Main.

Variables (cooccur_measure : string) (T : tables).

Let measures := Py.split comma cooccur_measure.

(** How [main] ends, read off its three stages. *)
Lemma main_end (e : failure) :
  snd (main cooccur_measure T) = Some e ->
  index_cooccur (cooccur_rows T) = Fail e
  \/ taxa_combinations (index (hgt_tab T)) = Fail e
  \/ exists cooccur pairs p,
       index_cooccur (cooccur_rows T) = Ok cooccur
       /\ taxa_combinations (index (hgt_tab T)) = Ok pairs
       /\ In p pairs /\ process_pair cooccur T measures p = Fail e.
Proof.
  unfold main. destruct (index_cooccur (cooccur_rows T)) as [cooccur|e0] eqn:EC;
    [|simpl; intros H; injection H as <-; auto].
  destruct (taxa_combinations (index (hgt_tab T))) as [pairs|e0] eqn:EP;
    [|simpl; intros H; injection H as <-; auto].
  fold measures. destruct (List.length measures) eqn:EL.
  - apply length_zero_iff_nil in EL. now apply split_not_nil in EL.
  - simpl. destruct (emit_rows cooccur T measures pairs) as [out st] eqn:ER. simpl.
    intros ->. right; right.
    destruct (emit_rows_fail cooccur T measures pairs e) as (p & Hin & Hp);
      [now rewrite ER|].
    exists cooccur, pairs, p. auto.
Qed.

(** With the tables loaded and every key well formed, the run prints the
    header and then goes through the pairs. *)
Lemma main_rows (cooccur : frame) (pairs : list (string * string)) :
  index_cooccur (cooccur_rows T) = Ok cooccur ->
  taxa_combinations (index (hgt_tab T)) = Ok pairs ->
  main cooccur_measure T =
  (headerline measures :: fst (emit_rows cooccur T measures pairs),
   snd (emit_rows cooccur T measures pairs)).
Proof.
  unfold main. intros -> ->. fold measures. destruct (List.length measures) eqn:EL.
  - apply length_zero_iff_nil in EL. now apply split_not_nil in EL.
  - simpl. now destruct (emit_rows cooccur T measures pairs).
Qed.

(** A key of the HGT table whose iteration fails: the run does not
    complete, and whatever it printed holds no line of that iteration. *)
Lemma main_blocked (cooccur : frame) (k i j : string) (e : failure) :
  index_cooccur (cooccur_rows T) = Ok cooccur ->
  In k (index (hgt_tab T)) -> Py.split comma k = [i; j] ->
  process_pair cooccur T measures (i, j) = Fail e ->
  exists e', snd (main cooccur_measure T) = Some e'
    /\ (fst (main cooccur_measure T) = []
        \/ exists done lines,
             fst (main cooccur_measure T) = headerline measures :: lines
             /\ Forall2 (fun q line => process_pair cooccur T measures q = Ok line)
                        done lines
             /\ ~ In (i, j) done).
Proof.
  intros HC Hk Hs Hp.
  destruct (taxa_combinations (index (hgt_tab T))) as [pairs|e0] eqn:EP.
  - rewrite (main_rows _ _ HC EP). simpl.
    destruct (taxa_combinations_key _ _ k EP Hk) as (i' & j' & Hs' & Hin).
    rewrite Hs in Hs'. injection Hs' as <- <-.
    destruct (emit_rows_blocked cooccur T measures pairs (i, j) e Hin Hp)
      as (done & e' & He' & F & Hd).
    exists e'. split; [exact He'|]. right. eauto.
  - unfold main. rewrite HC, EP. simpl. eauto.
Qed.

End Main.

(** The messages of the [sys.exit] calls tell the calls apart. *)
Lemma message_not_in_hgt (e : failure) (k : string) :
  message e = message (NotInHgt k) -> exists k', e = NotInHgt k'.
Proof.
  destruct e; simpl; intros H; try discriminate H.
  eauto.
Qed.

(** * The properties *)

(** ** Canonical keys *)

(** C8. The canonical pair key does not depend on the order of the two
    taxa: [canonical_key a b = canonical_key b a], and both are the comma
    join of the pair sorted lexicographically, that is of [x; y] with
    {x, y} = {a, b} and [y] not below [x]. *)
Theorem canonical_key_order_independent (a b : string) :
  canonical_key a b = canonical_key b a
  /\ canonical_key a b = Py.join "," (Py.sorted [a; b])
  /\ exists x y,
       Py.sorted [a; b] = [x; y]
       /\ ((x = a /\ y = b) \/ (x = b /\ y = a))
       /\ String.ltb y x = false
       /\ canonical_key a b = x ++ "," ++ y.
Proof.
  split; [|split].
  - unfold canonical_key. now rewrite sorted_two_comm.
  - reflexivity.
  - unfold canonical_key. rewrite sorted_two.
    destruct (String.ltb b a) eqn:H.
    + exists b, a. repeat split; auto. now apply ltb_asym.
    + exists a, b. repeat split; auto.
Qed.

(** ** The membership test on the HGT table *)

(** C9. The exit "Taxa_combo not found in HGT table" cannot be taken:
    a key of the HGT index that splits into exactly two parts is rebuilt
    from them unchanged, so it is in the index at the membership test, and
    no run ends with that message. *)
Theorem not_in_hgt_unreachable (cooccur_measure : string) (T : tables) :
  (forall k i j, In k (index (hgt_tab T)) -> Py.split comma k = [i; j] ->
                 i ++ "," ++ j = k
                 /\ in_index (i ++ "," ++ j) (hgt_tab T) = true)
  /\ (forall e k, snd (main cooccur_measure T) = Some e ->
                  message e <> message (NotInHgt k)).
Proof.
  assert (R : forall k i j, In k (index (hgt_tab T)) -> Py.split comma k = [i; j] ->
                            i ++ "," ++ j = k
                            /\ in_index (i ++ "," ++ j) (hgt_tab T) = true).
  { intros k i j Hk Hs. pose proof (rejoin _ _ _ Hs) as E.
    split; [exact E|]. rewrite E. now apply in_index_In. }
  split; [exact R|].
  intros e k He Hm. apply message_not_in_hgt in Hm as (k' & ->).
  apply main_end in He as [He | [He | (c & pairs & [i j] & _ & HP & Hin & Hp)]].
  - apply index_cooccur_fail in He. not_uncaught He.
  - apply taxa_combinations_fail in He as (pre & k0 & post & _ & _ & He & _).
    discriminate.
  - destruct (taxa_combinations_pair _ _ _ HP Hin) as (k0 & Hk0 & Hs). simpl in Hs.
    destruct (R _ _ _ Hk0 Hs) as (_ & Hidx).
    apply process_pair_fail in Hp
      as [Hp | [Hp | [(Hp & Hno) | [(Hp & _) | (Hp & _)]]]];
      try discriminate Hp; [not_uncaught Hp | congruence].
Qed.

Lemma not_in_hgt_unreachable_witness :
  "X" ++ "," ++ "Y" = "X,Y"
  /\ in_index ("X" ++ "," ++ "Y") (hgt_tab Scenario.T) = true.
Proof.
  apply (proj1 (not_in_hgt_unreachable "jaccard" Scenario.T) "X,Y" "X" "Y").
  - simpl. now left.
  - reflexivity.
Defined.

(** ** The format check *)

(** C3, as stated, fails: the key [",Y"] has two parts, one of them
    empty, and is not rejected by the format check.  The run prints the
    header and ends on the lookup of the empty taxon in the taxonomic
    table, an uncaught [KeyError] and no FormatError. *)
Lemma empty_part_passes_format_check :
  In ",Y" (index (hgt_tab EmptyPart.T))
  /\ ~ two_nonempty_parts ",Y"
  /\ taxa_combinations (index (hgt_tab EmptyPart.T)) = Ok [("", "Y")]
  /\ main "jaccard" EmptyPart.T = ([headerline ["jaccard"]], Some KeyError)
  /\ ~ FormatError KeyError.
Proof.
  repeat split.
  - simpl. now left.
  - intros (i & j & H & Hi & _). vm_compute in H. injection H as <- _. now apply Hi.
  - intros (k & H). discriminate H.
Qed.

(** C3, amended. The format check asks for exactly two parts and nothing
    about their content.  When some key of the HGT table does not split
    into exactly two parts, the run ends with a FormatError naming the
    first such key before anything is printed, header included; when
    every key splits into two parts, empty or not, no run ends with a
    FormatError. *)
Theorem format_check (cooccur_measure : string) (T : tables) (cooccur : frame) :
  index_cooccur (cooccur_rows T) = Ok cooccur ->
  ((exists k, In k (index (hgt_tab T)) /\ List.length (Py.split comma k) <> 2) ->
   exists pre k' post,
     index (hgt_tab T) = (pre ++ k' :: post)%list
     /\ Forall (fun k => List.length (Py.split comma k) = 2) pre
     /\ List.length (Py.split comma k') <> 2
     /\ main cooccur_measure T = ([], Some (BadFormat k'))
     /\ FormatError (BadFormat k'))
  /\ ((forall k, In k (index (hgt_tab T)) -> List.length (Py.split comma k) = 2) ->
      forall e, snd (main cooccur_measure T) = Some e -> ~ FormatError e).
Proof.
  intros HC. split.
  - intros (k & Hk & Hl).
    destruct (taxa_combinations (index (hgt_tab T))) as [pairs|e] eqn:EP.
    + destruct (taxa_combinations_key _ _ k EP Hk) as (i & j & Hs & _).
      rewrite Hs in Hl. now elim Hl.
    + destruct (taxa_combinations_fail _ _ EP) as (pre & k' & post & E & Hpre & -> & Hl').
      exists pre, k', post. repeat split; auto.
      * unfold main. now rewrite HC, EP.
      * now exists k'.
  - intros Hall e He (k & ->).
    apply main_end in He as [He | [He | (c & pairs & [i j] & _ & _ & _ & Hp)]].
    + apply index_cooccur_fail in He. not_uncaught He.
    + apply taxa_combinations_fail in He as (pre & k0 & post & E & _ & _ & Hl).
      apply Hl, Hall. rewrite E. apply in_or_app. right. now left.
    + apply process_pair_fail in Hp
        as [Hp | [Hp | [(Hp & _) | [(Hp & _) | (Hp & _)]]]];
        try discriminate Hp. not_uncaught Hp.
Qed.

Lemma format_check_witness :
  exists pre k' post,
    index (hgt_tab ThreeParts.T) = (pre ++ k' :: post)%list
    /\ Forall (fun k => List.length (Py.split comma k) = 2) pre
    /\ List.length (Py.split comma k') <> 2
    /\ main "jaccard" ThreeParts.T = ([], Some (BadFormat k'))
    /\ FormatError (BadFormat k').
Proof.
  apply (proj1 (format_check "jaccard" ThreeParts.T
                  [("X,Y", [("taxon_i", "X"); ("taxon_j", "Y"); ("jaccard", "0.42")])]
                  eq_refl)).
  exists "X,Y,Z". split.
  - simpl. right. now left.
  - vm_compute. lia.
Defined.

(** ** The tip distance *)

(** C5, as stated, fails: the matrix is read at row [taxon_i], column
    [taxon_j] and in no other direction.  With both taxa among the rows
    and the distance stored at [Y, X] only, the pair X,Y is not given
    0.13: the lookup raises and the run ends after the header. *)
Lemma tip_dist_read_in_one_direction :
  loc (tip_dist LowerTriangle.T) "Y" "X" = Ok (Scalar "0.13")
  /\ tip_dist_either_direction (tip_dist LowerTriangle.T) "X" "Y" = Ok (Scalar "0.13")
  /\ tip_dist_val (tip_dist LowerTriangle.T) "X" "Y" = Fail KeyError
  /\ main "jaccard" LowerTriangle.T = ([headerline ["jaccard"]], Some KeyError).
Proof. repeat split. Qed.

(** One iteration that prints: the fields of its line. *)
Lemma process_pair_ok (cooccur : frame) (T : tables) (measures : list string)
      (i j line : string) :
  process_pair cooccur T measures (i, j) = Ok line ->
  exists tip species hgt_count vals,
    tip_dist_val (tip_dist T) i j = Ok (Scalar tip)
    /\ loc (hgt_tab T) (i ++ "," ++ j) "species" = Ok (Scalar species)
    /\ loc (hgt_tab T) (i ++ "," ++ j) "hgt_count" = Ok (Scalar hgt_count)
    /\ cooccur_values cooccur measures (i ++ "," ++ j) (j ++ "," ++ i) = Ok vals
    /\ line = (i ++ "," ++ j) ++ tab ++ i ++ tab ++ j ++ tab ++ tip ++ tab
              ++ (species ++ tab ++ hgt_count) ++ tab ++ Py.join tab vals.
Proof.
  unfold process_pair. cbn [fst snd]. intros H.
  destruct (tip_dist_val (tip_dist T) i j) as [[tip|]|]; try discriminate H;
    cbn [bind] in H;
    (destruct (strain_check _ _ _ _); [|discriminate H]); cbn [bind] in H;
    (destruct (hgt_check _ _ _); [|discriminate H]); cbn [bind] in H;
    (destruct (loc _ _ "hgt_count") as [[ct|]|]; try discriminate H); cbn [bind] in H;
    (destruct (loc _ _ "species") as [[sp|]|]; try discriminate H); cbn [bind] in H;
    (destruct (cooccur_values _ _ _ _) as [vals|]; [|discriminate H]);
    cbn [bind scalar] in H; try discriminate H;
    (destruct (is_nan sp); [discriminate H|]); cbn [bind scalar] in H;
    try discriminate H.
  injection H as <-. exists tip, sp, ct, vals. repeat split.
Qed.

Lemma tip_dist_val_absent (tip : frame) (i j : string) :
  in_index i tip = false \/ in_index j tip = false ->
  tip_dist_val tip i j = Ok (Scalar "NA").
Proof.
  unfold tip_dist_val. intros [-> | ->]; simpl; [reflexivity|].
  now rewrite orb_true_r.
Qed.

(** C5, amended. The tip-distance field is the cell of the matrix at row
    [taxon_i], column [taxon_j]; when either taxon is not a row label of
    the matrix the field is "NA" and nothing fails. *)
Theorem tip_dist_field (cooccur : frame) (T : tables) (measures : list string)
        (i j : string) :
  (in_index i (tip_dist T) = false \/ in_index j (tip_dist T) = false ->
   tip_dist_val (tip_dist T) i j = Ok (Scalar "NA"))
  /\ (in_index i (tip_dist T) = true -> in_index j (tip_dist T) = true ->
      tip_dist_val (tip_dist T) i j = loc (tip_dist T) i j)
  /\ (forall line, process_pair cooccur T measures (i, j) = Ok line ->
      exists tip rest,
        tip_dist_val (tip_dist T) i j = Ok (Scalar tip)
        /\ line = (i ++ "," ++ j) ++ tab ++ i ++ tab ++ j ++ tab ++ tip ++ tab ++ rest).
Proof.
  split; [|split].
  - apply tip_dist_val_absent.
  - unfold tip_dist_val. now intros -> ->.
  - intros line H. apply process_pair_ok in H
      as (tip & species & hgt_count & vals & Ht & _ & _ & _ & ->).
    eauto.
Qed.

Lemma tip_dist_field_witness :
  tip_dist_val (tip_dist NoTipRow.T) "X" "Y" = Ok (Scalar "NA").
Proof.
  apply (proj1 (tip_dist_field [] NoTipRow.T ["jaccard"] "X" "Y")).
  left. reflexivity.
Defined.

(** ** The strain-level check *)

Lemma is_nan_false (x : string) : is_nan x = false <-> x <> "nan".
Proof. unfold is_nan. apply String.eqb_neq. Qed.

Lemma differ_sym (x y : string) : differ x y = differ y x.
Proof.
  unfold differ. rewrite (String.eqb_sym y x).
  destruct (is_nan x), (is_nan y); reflexivity.
Qed.

(** Two cells do not differ exactly when they are the same present cell. *)
Lemma differ_false (x y : string) : differ x y = false <-> x = y /\ x <> "nan".
Proof.
  unfold differ. rewrite <- is_nan_false. split.
  - intros H. apply orb_false_iff in H as [H Hn].
    apply orb_false_iff in H as [Hx Hy]. apply negb_false_iff, String.eqb_eq in Hn.
    now split.
  - intros [<- Hx]. now rewrite Hx, String.eqb_refl.
Qed.

(** What the scan returns: the level of the first index at which the
    cells differ, or "NO_DIFF_FOUND" when they differ at none. *)
Lemma first_diff_cases (levels vi vj : list string) :
  List.length vi = List.length levels -> List.length vj = List.length levels ->
  (exists n, n < List.length levels
             /\ (forall m, m < n -> differ (nth m vi "") (nth m vj "") = false)
             /\ differ (nth n vi "") (nth n vj "") = true
             /\ first_diff levels vi vj = nth n levels "")
  \/ ((forall m, m < List.length levels -> differ (nth m vi "") (nth m vj "") = false)
      /\ first_diff levels vi vj = "NO_DIFF_FOUND").
Proof.
  revert vi vj. induction levels as [|l ls IH]; intros [|x vi] [|y vj] Hi Hj;
    try discriminate.
  - right. split; [intros m Hm; inversion Hm | reflexivity].
  - simpl. destruct (differ x y) eqn:D.
    + left. exists 0. repeat split; [simpl; lia | intros m Hm; lia | exact D].
    + injection Hi as Hi. injection Hj as Hj.
      destruct (IH vi vj Hi Hj) as [(n & Hn & Hlt & Hd & Hr) | (Hall & Hr)].
      * left. exists (S n). repeat split; [simpl; lia | | exact Hd | exact Hr].
        intros [|m] Hm; [exact D | apply Hlt; lia].
      * right. split; [|exact Hr].
        intros [|m] Hm; [exact D | apply Hall; simpl in Hm; lia].
Qed.

(** On vectors of eight ranks the scan answers "Strain" exactly when the
    first difference is at Strain. *)
Lemma first_diff_strain (vi vj : list string) :
  List.length vi = 8 -> List.length vj = 8 ->
  first_diff tax_levels vi vj = "Strain" <-> first_difference_at_strain vi vj.
Proof.
  intros Hi Hj. unfold first_difference_at_strain.
  destruct (first_diff_cases tax_levels vi vj Hi Hj)
    as [(n & Hn & Hlt & Hd & Hr) | (Hall & Hr)]; rewrite Hr; simpl in *.
  - split.
    + intros E. assert (n = 7)
        by (do 8 (destruct n as [|n]; [try discriminate E; try reflexivity|]); lia).
      subst n. now split.
    + intros [Hlt' Hd']. destruct (Nat.lt_trichotomy n 7) as [L | [-> | L]].
      * rewrite (Hlt' n L) in Hd. discriminate.
      * reflexivity.
      * lia.
  - split; [discriminate|]. intros [_ Hd]. rewrite Hall in Hd by lia. discriminate.
Qed.

Lemma strain_check_unique (taxa : frame) (i j key : string) (vi vj : list string) :
  loc_cols taxa i tax_levels = Ok [vi] ->
  loc_cols taxa j tax_levels = Ok [vj] ->
  strain_check taxa i j key =
  if String.eqb (first_diff tax_levels vi vj) "Strain" then Ok tt
  else Fail (NotStrainLevel key).
Proof. unfold strain_check. now intros -> ->. Qed.

Lemma ranks_length (taxa : frame) (t : string) (v : list string) :
  loc_cols taxa t tax_levels = Ok [v] -> List.length v = 8.
Proof. intros H. apply (loc_cols_length _ _ _ v _ H). now left. Qed.

Lemma strain_check_decides (taxa : frame) (i j key : string) (vi vj : list string) :
  loc_cols taxa i tax_levels = Ok [vi] ->
  loc_cols taxa j tax_levels = Ok [vj] ->
  (first_difference_at_strain vi vj -> strain_check taxa i j key = Ok tt)
  /\ (~ first_difference_at_strain vi vj ->
      strain_check taxa i j key = Fail (NotStrainLevel key)).
Proof.
  intros Hi Hj.
  pose proof (first_diff_strain vi vj (ranks_length _ _ _ Hi) (ranks_length _ _ _ Hj))
    as S.
  rewrite (strain_check_unique _ _ _ _ _ _ Hi Hj).
  destruct (String.eqb_spec (first_diff tax_levels vi vj) "Strain") as [E|E].
  - split; [reflexivity|]. intros D. now apply S in E.
  - split; [|reflexivity]. intros D. now apply S in D.
Qed.

(** The iteration fails where its strain-level check fails. *)
Lemma process_pair_strain (cooccur : frame) (T : tables) (measures : list string)
      (i j : string) (c : cell) (e : failure) :
  tip_dist_val (tip_dist T) i j = Ok c ->
  strain_check (taxa_tab T) i j (i ++ "," ++ j) = Fail e ->
  process_pair cooccur T measures (i, j) = Fail e.
Proof. unfold process_pair. cbn [fst snd]. now intros -> ->. Qed.

(** C4, as stated, fails on missing cells.  Line 92 compares with [!=],
    and a missing cell (NaN) differs from every cell, itself included.
    Two taxa with the same eight ranks, the Strain cell missing in both,
    pass the check and get their line; two taxa that differ in text at
    Strain only, the Family cell missing in both, are stopped as not at
    strain level. *)
Lemma missing_rank_cells_differ :
  loc_cols (taxa_tab MissingStrain.T) "X" tax_levels
  = loc_cols (taxa_tab MissingStrain.T) "Y" tax_levels
  /\ main "jaccard" MissingStrain.T
     = ([headerline ["jaccard"];
         "X,Y" ++ tab ++ "X" ++ tab ++ "Y" ++ tab ++ "0.13" ++ tab ++ "sp1" ++ tab
         ++ "5" ++ tab ++ "0.42"], None)
  /\ loc_cols (taxa_tab MissingFamily.T) "X" tax_levels
     = Ok [["d"; "p"; "c"; "o"; "nan"; "g"; "sp1"; "sX"]]
  /\ loc_cols (taxa_tab MissingFamily.T) "Y" tax_levels
     = Ok [["d"; "p"; "c"; "o"; "nan"; "g"; "sp1"; "sY"]]
  /\ main "jaccard" MissingFamily.T
     = ([headerline ["jaccard"]], Some (NotStrainLevel "X,Y")).
Proof. repeat split. Qed.

(** C4, amended. For a pair of the HGT table whose tip distance and two
    rank vectors were looked up, the scan over Domain, Phylum, Class,
    Order, Family, Genus, Species, Strain compares the cells with [!=],
    under which two cells do not differ exactly when they are the same
    present cell.  The first rank at which the cells differ must be
    Strain.  When it is, the check passes; when the cells differ at an
    earlier rank, or at no rank, the iteration ends in the
    ConsistencyError "Taxa combo not at strain level", which names the
    pair: the run does not complete and prints no line for the pair. *)
Theorem strain_level_check (cooccur_measure : string) (T : tables) (cooccur : frame)
        (k i j : string) (c : cell) (vi vj : list string) :
  index_cooccur (cooccur_rows T) = Ok cooccur ->
  In k (index (hgt_tab T)) -> Py.split comma k = [i; j] ->
  tip_dist_val (tip_dist T) i j = Ok c ->
  loc_cols (taxa_tab T) i tax_levels = Ok [vi] ->
  loc_cols (taxa_tab T) j tax_levels = Ok [vj] ->
  let measures := Py.split comma cooccur_measure in
  (first_difference_at_strain vi vj ->
   strain_check (taxa_tab T) i j (i ++ "," ++ j) = Ok tt)
  /\ (~ first_difference_at_strain vi vj ->
      process_pair cooccur T measures (i, j) = Fail (NotStrainLevel (i ++ "," ++ j))
      /\ ConsistencyError (NotStrainLevel (i ++ "," ++ j))
      /\ message (NotStrainLevel (i ++ "," ++ j))
         = Some ("Error - Taxa combo not at strain level: " ++ (i ++ "," ++ j) ++ ".")
      /\ exists e', snd (main cooccur_measure T) = Some e'
           /\ (fst (main cooccur_measure T) = []
               \/ exists done lines,
                    fst (main cooccur_measure T) = headerline measures :: lines
                    /\ Forall2 (fun q line =>
                                  process_pair cooccur T measures q = Ok line)
                               done lines
                    /\ ~ In (i, j) done))
  /\ (forall n, n < 7 -> differ (nth n vi "") (nth n vj "") = true ->
                 ~ first_difference_at_strain vi vj)
  /\ ((forall n, n < 8 -> differ (nth n vi "") (nth n vj "") = false) ->
      ~ first_difference_at_strain vi vj)
  /\ (forall x y, differ x y = false <-> x = y /\ x <> "nan").
Proof.
  intros HC Hk Hs Ht Hi Hj measures.
  destruct (strain_check_decides (taxa_tab T) i j (i ++ "," ++ j) vi vj Hi Hj) as [P N].
  split; [exact P|split; [|split; [|split]]].
  - intros D.
    assert (Hp : process_pair cooccur T measures (i, j)
                 = Fail (NotStrainLevel (i ++ "," ++ j)))
      by (eapply process_pair_strain; [exact Ht | exact (N D)]).
    split; [exact Hp | split; [|split]].
    + exists (i ++ "," ++ j). auto.
    + reflexivity.
    + eapply main_blocked; eassumption.
  - intros n Hn Hd [Hlt _]. rewrite (Hlt n Hn) in Hd. discriminate.
  - intros Hall [_ Hd]. rewrite Hall in Hd by lia. discriminate.
  - apply differ_false.
Qed.

Lemma strain_level_check_witness :
  process_pair SpeciesDiffer.cooccur SpeciesDiffer.T (Py.split comma "jaccard") ("X", "Y")
  = Fail (NotStrainLevel ("X" ++ "," ++ "Y"))
  /\ ConsistencyError (NotStrainLevel ("X" ++ "," ++ "Y"))
  /\ message (NotStrainLevel ("X" ++ "," ++ "Y"))
     = Some ("Error - Taxa combo not at strain level: " ++ ("X" ++ "," ++ "Y") ++ ".")
  /\ exists e', snd (main "jaccard" SpeciesDiffer.T) = Some e'
       /\ (fst (main "jaccard" SpeciesDiffer.T) = []
           \/ exists done lines,
                fst (main "jaccard" SpeciesDiffer.T)
                = headerline (Py.split comma "jaccard") :: lines
                /\ Forall2 (fun q line =>
                              process_pair SpeciesDiffer.cooccur SpeciesDiffer.T
                                           (Py.split comma "jaccard") q = Ok line)
                           done lines
                /\ ~ In ("X", "Y") done).
Proof.
  apply (proj1 (proj2 (strain_level_check "jaccard" SpeciesDiffer.T SpeciesDiffer.cooccur
                         "X,Y" "X" "Y" (Scalar "0.13")
                         ["d"; "p"; "c"; "o"; "f"; "g"; "sp1"; "sX"]
                         ["d"; "p"; "c"; "o"; "f"; "g"; "sp2"; "sY"]
                         eq_refl (or_introl eq_refl) eq_refl eq_refl eq_refl eq_refl))).
  intros [H _]. specialize (H 6 ltac:(lia)). vm_compute in H. discriminate H.
Defined.

(** ** Taxa missing from the taxonomic table *)

(** C10. A pair is processed on the assumption that both taxa are rows
    of the taxonomic table.  When one is not, the iteration ends in an
    uncaught lookup exception: no "NA" is printed for it and no message
    of the script's own is given, unlike a taxon missing from the
    tip-distance table or a pair missing from the co-occurrence table,
    for which "NA" is produced. *)
Theorem taxa_absence_is_uncaught (cooccur : frame) (T : tables)
        (measures : list string) (i j : string) :
  in_index i (taxa_tab T) = false \/ in_index j (taxa_tab T) = false ->
  process_pair cooccur T measures (i, j) = Fail KeyError
  /\ message KeyError = None
  /\ ~ FormatError KeyError /\ ~ ConsistencyError KeyError
  /\ (in_index i (tip_dist T) = false \/ in_index j (tip_dist T) = false ->
      tip_dist_val (tip_dist T) i j = Ok (Scalar "NA"))
  /\ (in_index (i ++ "," ++ j) cooccur = false ->
      in_index (j ++ "," ++ i) cooccur = false ->
      cooccur_values cooccur measures (i ++ "," ++ j) (j ++ "," ++ i)
      = Ok (repeat "NA" (List.length measures))).
Proof.
  intros H. repeat split.
  - unfold process_pair. cbn [fst snd].
    destruct (tip_dist_val (tip_dist T) i j) as [c|e] eqn:Et; cbn [bind];
      [|now rewrite (tip_dist_val_fail _ _ _ _ Et)].
    assert (S : strain_check (taxa_tab T) i j (i ++ "," ++ j) = Fail KeyError).
    { unfold strain_check. destruct H as [H | H].
      - now rewrite (loc_cols_absent _ _ _ H).
      - destruct (loc_cols (taxa_tab T) i tax_levels) as [l|e] eqn:Ei; simpl.
        + now rewrite (loc_cols_absent _ _ _ H).
        + now rewrite (loc_cols_fail _ _ _ _ Ei). }
    now rewrite S.
  - intros (k & E). discriminate E.
  - intros (k & [E | [E | E]]); discriminate E.
  - apply tip_dist_val_absent.
  - intros H1 H2. unfold cooccur_values. now rewrite H1, H2.
Qed.

Lemma taxa_absence_is_uncaught_witness :
  process_pair [] NoTaxaRow.T ["jaccard"] ("X", "Y") = Fail KeyError.
Proof.
  apply (taxa_absence_is_uncaught [] NoTaxaRow.T ["jaccard"] "X" "Y").
  left. reflexivity.
Defined.

(** ** Reverse-ordered keys *)

(** A key of the HGT table whose reverse is a key too: its iteration
    never prints, and ends at one of lines 85 to 101. *)
Lemma hgt_reverse_never_prints (cooccur : frame) (T : tables) (measures : list string)
      (i j : string) :
  in_index (i ++ "," ++ j) (hgt_tab T) = true ->
  in_index (j ++ "," ++ i) (hgt_tab T) = true ->
  exists e, process_pair cooccur T measures (i, j) = Fail e
            /\ (e = KeyError \/ (exists l, e = Repeated l)
                \/ e = NotStrainLevel (i ++ "," ++ j)
                \/ e = ReverseInHgt (j ++ "," ++ i))
            /\ (strain_check (taxa_tab T) i j (i ++ "," ++ j) = Ok tt ->
                tip_dist_val (tip_dist T) i j <> Fail KeyError ->
                e = ReverseInHgt (j ++ "," ++ i)).
Proof.
  intros Hk Hr. unfold process_pair. cbn [fst snd].
  destruct (tip_dist_val (tip_dist T) i j) as [c|e] eqn:Et; cbn [bind].
  - destruct (strain_check (taxa_tab T) i j (i ++ "," ++ j)) as [[]|e] eqn:Es; cbn [bind].
    + unfold hgt_check. rewrite Hk, Hr. simpl. eauto 7.
    + exists e. split; [reflexivity | split; [|discriminate]].
      apply strain_check_fail in Es. intuition.
  - exists e. rewrite (tip_dist_val_fail _ _ _ _ Et).
    split; [reflexivity | split; [now left|]]. intros _ H. now elim H.
Qed.

Lemma key_error_not_consistency : ~ ConsistencyError KeyError.
Proof. intros (k & [E | [E | E]]); discriminate E. Qed.

(** C6, as stated, fails: the lookups of lines 85-90 come before the
    test of line 100.  With the keys X,Y and Y,X in the HGT table and X
    no row of the taxonomic table, the run ends after the header in the
    uncaught [KeyError] of line 89, which is no ConsistencyError. *)
Lemma reverse_key_behind_lookup :
  in_index "X,Y" (hgt_tab BothOrdersNoTaxon.T) = true
  /\ in_index "Y,X" (hgt_tab BothOrdersNoTaxon.T) = true
  /\ main "jaccard" BothOrdersNoTaxon.T = ([headerline ["jaccard"]], Some KeyError)
  /\ ~ ConsistencyError KeyError.
Proof. repeat split. apply key_error_not_consistency. Qed.

(** C6, amended. For a key of the HGT table whose reverse-ordered key is
    in the HGT index too, no line is printed and the run does not
    complete.  The iteration ends in a ConsistencyError (the reverse key
    found in the HGT table when the pair is at strain level, the pair not
    at strain level otherwise) unless a lookup that comes first raises:
    the tip distance of line 85 or a rank vector of lines 89-92, whose
    uncaught exception then ends the run. *)
Theorem hgt_reverse_key_fatal (cooccur_measure : string) (T : tables) (cooccur : frame)
        (k i j : string) :
  index_cooccur (cooccur_rows T) = Ok cooccur ->
  In k (index (hgt_tab T)) -> Py.split comma k = [i; j] ->
  in_index (j ++ "," ++ i) (hgt_tab T) = true ->
  let measures := Py.split comma cooccur_measure in
  exists e,
    process_pair cooccur T measures (i, j) = Fail e
    /\ (e = KeyError \/ (exists l, e = Repeated l) \/ ConsistencyError e)
    /\ (forall c vi vj,
          tip_dist_val (tip_dist T) i j = Ok c ->
          loc_cols (taxa_tab T) i tax_levels = Ok [vi] ->
          loc_cols (taxa_tab T) j tax_levels = Ok [vj] ->
          ConsistencyError e
          /\ (first_difference_at_strain vi vj -> e = ReverseInHgt (j ++ "," ++ i))
          /\ (~ first_difference_at_strain vi vj ->
              e = NotStrainLevel (i ++ "," ++ j)))
    /\ exists e', snd (main cooccur_measure T) = Some e'
         /\ (fst (main cooccur_measure T) = []
             \/ exists done lines,
                  fst (main cooccur_measure T) = headerline measures :: lines
                  /\ Forall2 (fun q line => process_pair cooccur T measures q = Ok line)
                             done lines
                  /\ ~ In (i, j) done).
Proof.
  intros HC Hk Hs Hr measures.
  assert (Hidx : in_index (i ++ "," ++ j) (hgt_tab T) = true)
    by (rewrite (rejoin _ _ _ Hs); now apply in_index_In).
  destruct (hgt_reverse_never_prints cooccur T measures i j Hidx Hr)
    as (e & He & Hcases & Hrev).
  exists e. split; [exact He | split; [|split]].
  - destruct Hcases as [-> | [H | [-> | ->]]]; auto.
    + right; right. exists (i ++ "," ++ j). auto.
    + right; right. exists (j ++ "," ++ i). auto.
  - intros c vi vj Ht Hi Hj.
    destruct (strain_check_decides (taxa_tab T) i j (i ++ "," ++ j) vi vj Hi Hj)
      as (P & N).
    assert (S : first_difference_at_strain vi vj -> e = ReverseInHgt (j ++ "," ++ i)).
    { intros D. apply Hrev; [now apply P | rewrite Ht; discriminate]. }
    assert (S' : ~ first_difference_at_strain vi vj -> e = NotStrainLevel (i ++ "," ++ j)).
    { intros D. pose proof (process_pair_strain cooccur T measures i j c _ Ht (N D)).
      congruence. }
    split; [|split; [exact S | exact S']].
    pose proof (first_diff_strain vi vj (ranks_length _ _ _ Hi) (ranks_length _ _ _ Hj))
      as F.
    destruct (String.eqb_spec (first_diff tax_levels vi vj) "Strain") as [E|E].
    + exists (j ++ "," ++ i). right; left. apply S. now apply F.
    + exists (i ++ "," ++ j). left. apply S'. intros D. now apply F in D.
  - eapply main_blocked; eassumption.
Qed.

Lemma hgt_reverse_key_fatal_witness :
  exists e,
    process_pair BothOrders.cooccur BothOrders.T (Py.split comma "jaccard") ("X", "Y")
    = Fail e
    /\ (e = KeyError \/ (exists l, e = Repeated l) \/ ConsistencyError e)
    /\ (forall c vi vj,
          tip_dist_val (tip_dist BothOrders.T) "X" "Y" = Ok c ->
          loc_cols (taxa_tab BothOrders.T) "X" tax_levels = Ok [vi] ->
          loc_cols (taxa_tab BothOrders.T) "Y" tax_levels = Ok [vj] ->
          ConsistencyError e
          /\ (first_difference_at_strain vi vj -> e = ReverseInHgt ("Y" ++ "," ++ "X"))
          /\ (~ first_difference_at_strain vi vj ->
              e = NotStrainLevel ("X" ++ "," ++ "Y")))
    /\ exists e', snd (main "jaccard" BothOrders.T) = Some e'
         /\ (fst (main "jaccard" BothOrders.T) = []
             \/ exists done lines,
                  fst (main "jaccard" BothOrders.T)
                  = headerline (Py.split comma "jaccard") :: lines
                  /\ Forall2 (fun q line =>
                                process_pair BothOrders.cooccur BothOrders.T
                                             (Py.split comma "jaccard") q = Ok line)
                             done lines
                  /\ ~ In ("X", "Y") done).
Proof.
  apply (hgt_reverse_key_fatal "jaccard" BothOrders.T BothOrders.cooccur "X,Y" "X" "Y").
  - reflexivity.
  - simpl. now left.
  - reflexivity.
  - reflexivity.
Defined.

Example both_orders_run :
  main "jaccard" BothOrders.T = ([headerline ["jaccard"]], Some (ReverseInHgt "Y,X")).
Proof. reflexivity. Qed.

Lemma mapM_ext {A B} (f g : A -> outcome B) (l : list A) :
  (forall a, f a = g a) -> mapM f l = mapM g l.
Proof. intros H. induction l as [|a l IH]; simpl; [reflexivity|]. now rewrite H, IH. Qed.

(** The key found once in the co-occurrence index: the cells of its row. *)
Lemma cooccur_values_unique (cooccur : frame) (ms : list string) (key rev : string)
      (r : row) :
  rows_at key cooccur = [r] ->
  cooccur_values cooccur ms key rev = mapM (fun m => of_option (row_get m r)) ms.
Proof.
  intros Hr. unfold cooccur_values. rewrite (rows_at_in_index _ _ _ _ Hr).
  apply mapM_ext. intros m. rewrite (loc_unique _ _ _ _ Hr).
  now destruct (row_get m r).
Qed.





(** ** The co-occurrence values *)

Lemma append_assoc (a b c : string) : (a ++ b) ++ c = a ++ b ++ c.
Proof. induction a as [|x a IH]; simpl; [reflexivity | now rewrite IH]. Qed.

(** C1, as stated, fails: the lookup is under the key as the HGT table
    writes it.  For the HGT key Y,X the co-occurrence table holds the
    measure under the canonical key X,Y, and the run ends in the
    ConsistencyError of the reverse key instead of printing 0.42. *)
Lemma lookup_is_not_under_canonical_key :
  index_cooccur (cooccur_rows ReversedKey.T) = Ok ReversedKey.cooccur
  /\ canonical_key "Y" "X" = "X,Y"
  /\ cooccur_values_canonical ReversedKey.cooccur ["jaccard"] "Y" "X" = Ok ["0.42"]
  /\ cooccur_values ReversedKey.cooccur ["jaccard"] ("Y" ++ "," ++ "X") ("X" ++ "," ++ "Y")
     = Fail (ReverseInCooccur "X,Y")
  /\ main "jaccard" ReversedKey.T
     = ([headerline ["jaccard"]], Some (ReverseInCooccur "X,Y")).
Proof. repeat split. Qed.

(** C1, amended. For a pair taxon_i, taxon_j of the HGT table the
    co-occurrence table is looked up under the key "taxon_i,taxon_j" as
    the HGT table writes it.  When that key labels one row, each requested
    measure is the cell of that row in the measure's column; when it is
    absent and the reverse-ordered key "taxon_j,taxon_i" is present, the
    iteration ends in a ConsistencyError; when neither is present, "NA" is
    given for every measure.  The values close the printed line, joined by
    tabs. *)
Theorem cooccur_lookup (cooccur : frame) (T : tables) (measures : list string)
        (i j : string) :
  (forall r, rows_at (i ++ "," ++ j) cooccur = [r] ->
             cooccur_values cooccur measures (i ++ "," ++ j) (j ++ "," ++ i)
             = mapM (fun measure => of_option (row_get measure r)) measures)
  /\ (in_index (i ++ "," ++ j) cooccur = false ->
      in_index (j ++ "," ++ i) cooccur = true ->
      cooccur_values cooccur measures (i ++ "," ++ j) (j ++ "," ++ i)
      = Fail (ReverseInCooccur (j ++ "," ++ i))
      /\ ConsistencyError (ReverseInCooccur (j ++ "," ++ i)))
  /\ (in_index (i ++ "," ++ j) cooccur = false ->
      in_index (j ++ "," ++ i) cooccur = false ->
      cooccur_values cooccur measures (i ++ "," ++ j) (j ++ "," ++ i)
      = Ok (repeat "NA" (List.length measures)))
  /\ (forall line, process_pair cooccur T measures (i, j) = Ok line ->
      exists vals front,
        cooccur_values cooccur measures (i ++ "," ++ j) (j ++ "," ++ i) = Ok vals
        /\ line = front ++ tab ++ Py.join tab vals).
Proof.
  split; [|split; [|split]].
  - intros r Hr. unfold cooccur_values. rewrite (rows_at_in_index _ _ _ _ Hr).
    apply mapM_ext. intros m. rewrite (loc_unique _ _ _ _ Hr).
    now destruct (row_get m r).
  - intros H1 H2. unfold cooccur_values. rewrite H1, H2. split; [reflexivity|].
    exists (j ++ "," ++ i). auto.
  - intros H1 H2. unfold cooccur_values. now rewrite H1, H2.
  - intros line H. apply process_pair_ok in H
      as (tip & species & hgt_count & vals & _ & _ & _ & Hv & ->).
    exists vals. eexists. split; [exact Hv|].
    rewrite <- !append_assoc. reflexivity.
Qed.

Lemma cooccur_lookup_witness :
  cooccur_values ReversedKey.cooccur ["jaccard"; "simpson"]
                 ("X" ++ "," ++ "Y") ("Y" ++ "," ++ "X")
  = mapM (fun measure =>
            of_option (row_get measure
                         [("taxon_i", "X"); ("taxon_j", "Y"); ("jaccard", "0.42")]))
         ["jaccard"; "simpson"].
Proof.
  apply (proj1 (cooccur_lookup ReversedKey.cooccur Scenario.T ["jaccard"; "simpson"]
                  "X" "Y")).
  reflexivity.
Defined.

(** With the index built by the script, the key as written is found only
    when it is the canonical one. *)
Lemma literal_key_found_is_canonical (rows : list row) (cooccur : frame) (k i j : string) :
  index_cooccur rows = Ok cooccur -> Py.split comma k = [i; j] ->
  in_index (i ++ "," ++ j) cooccur = true ->
  i ++ "," ++ j = canonical_key i j.
Proof.
  intros HC Hs Hin. destruct (split_two _ _ _ _ Hs) as (_ & Hi & Hj).
  destruct (index_cooccur_canonical _ _ _ HC Hin) as (p & q & E). symmetry in E.
  pose proof (canonical_key_ordered _ _ _ _ E Hi Hj) as O.
  unfold canonical_key. rewrite sorted_two, O. reflexivity.
Qed.

(** ** The scenario *)

Example scenario_runs :
  main "jaccard" Scenario.T =
  ([headerline ["jaccard"];
    "X,Y" ++ tab ++ "X" ++ tab ++ "Y" ++ tab ++ "0.13" ++ tab ++ "sp1" ++ tab
    ++ "5" ++ tab ++ "0.42"], None).
Proof. vm_compute. reflexivity. Qed.

(** C7. The HGT table holds the one key "X,Y" with species sp1 and
    hgt_count 5; X and Y have rank vectors that differ first at Strain;
    the co-occurrence index holds one row under "X,Y" with jaccard 0.42;
    X and Y are rows of the tip-distance matrix, with 0.13 at row X,
    column Y.  Asked for the measure jaccard, the run prints the header
    line and then exactly the line of pair key, taxon_i, taxon_j, tip
    distance, species, hgt_count and measure, separated by tabs, and
    completes. *)
Theorem scenario_row (T : tables) (cooccur : frame) (hrow crow trow : row)
        (vi vj : list string) :
  hgt_tab T = [("X,Y", hrow)] ->
  row_get "species" hrow = Some "sp1" ->
  row_get "hgt_count" hrow = Some "5" ->
  loc_cols (taxa_tab T) "X" tax_levels = Ok [vi] ->
  loc_cols (taxa_tab T) "Y" tax_levels = Ok [vj] ->
  first_difference_at_strain vi vj ->
  index_cooccur (cooccur_rows T) = Ok cooccur ->
  rows_at "X,Y" cooccur = [crow] ->
  row_get "jaccard" crow = Some "0.42" ->
  rows_at "X" (tip_dist T) = [trow] ->
  in_index "Y" (tip_dist T) = true ->
  row_get "Y" trow = Some "0.13" ->
  main "jaccard" T =
  (["taxa_combo" ++ tab ++ "taxon_i" ++ tab ++ "taxon_j" ++ tab ++ "tip_dist" ++ tab
    ++ "species" ++ tab ++ "ranger_hgt_tallies" ++ tab ++ "cooccur_jaccard";
    "X,Y" ++ tab ++ "X" ++ tab ++ "Y" ++ tab ++ "0.13" ++ tab ++ "sp1" ++ tab ++ "5"
    ++ tab ++ "0.42"],
   None).
Proof.
  intros Hh Hsp Hct Hi Hj D HC Hc Hm Ht HY Hd.
  assert (HP : taxa_combinations (index (hgt_tab T)) = Ok [("X", "Y")])
    by now rewrite Hh.
  rewrite (main_rows "jaccard" T cooccur _ HC HP).
  assert (P : process_pair cooccur T ["jaccard"] ("X", "Y")
              = Ok ("X,Y" ++ tab ++ "X" ++ tab ++ "Y" ++ tab ++ "0.13" ++ tab ++ "sp1"
                    ++ tab ++ "5" ++ tab ++ "0.42")).
  { unfold process_pair. cbn [fst snd].
    assert (E1 : tip_dist_val (tip_dist T) "X" "Y" = Ok (Scalar "0.13")).
    { unfold tip_dist_val. rewrite (rows_at_in_index _ _ _ _ Ht), HY. simpl.
      rewrite (loc_unique _ _ _ _ Ht), Hd. reflexivity. }
    rewrite E1. cbn [bind].
    rewrite (proj1 (strain_check_decides _ "X" "Y" _ vi vj Hi Hj) D). cbn [bind].
    assert (E2 : cooccur_values cooccur ["jaccard"] ("X" ++ "," ++ "Y") ("Y" ++ "," ++ "X")
                 = Ok ["0.42"]).
    { unfold cooccur_values. change ("X" ++ "," ++ "Y") with "X,Y".
      rewrite (rows_at_in_index _ _ _ _ Hc). simpl.
      rewrite (loc_unique _ _ _ _ Hc), Hm. reflexivity. }
    rewrite E2, Hh. unfold hgt_check, loc. simpl. rewrite Hsp, Hct. reflexivity. }
  change (Py.split comma "jaccard") with ["jaccard"].
  simpl emit_rows. rewrite P. reflexivity.
Qed.

Lemma scenario_row_witness :
  main "jaccard" Scenario.T =
  (["taxa_combo" ++ tab ++ "taxon_i" ++ tab ++ "taxon_j" ++ tab ++ "tip_dist" ++ tab
    ++ "species" ++ tab ++ "ranger_hgt_tallies" ++ tab ++ "cooccur_jaccard";
    "X,Y" ++ tab ++ "X" ++ tab ++ "Y" ++ tab ++ "0.13" ++ tab ++ "sp1" ++ tab ++ "5"
    ++ tab ++ "0.42"],
   None).
Proof.
  apply (scenario_row Scenario.T
           [("X,Y", [("taxon_i", "X"); ("taxon_j", "Y"); ("jaccard", "0.42")])]
           [("species", "sp1"); ("hgt_count", "5")]
           [("taxon_i", "X"); ("taxon_j", "Y"); ("jaccard", "0.42")]
           [("X", "0.0"); ("Y", "0.13")]
           ["d"; "p"; "c"; "o"; "f"; "g"; "sp1"; "sX"]
           ["d"; "p"; "c"; "o"; "f"; "g"; "sp1"; "sY"]);
    try reflexivity.
  split; [|reflexivity].
  intros n Hn. do 7 (destruct n as [|n]; [reflexivity|]). lia.
Defined.

(** * Further properties of the script *)

(** ** The measure list and the key format *)

Section SplitMore.

Variable sep : ascii.

Lemma split_join (l : list string) :
  l <> [] -> Forall (fun w => Py.has_char sep w = false) l ->
  Py.split sep (Py.join (String sep EmptyString) l) = l.
Proof.
  unfold Py.join. induction l as [|x l IH]; [congruence|]. intros _ H.
  apply Forall_cons_iff in H as [Hx Hl]. destruct l as [|y l].
  - simpl. now apply split_clean.
  - change (String.concat (String sep EmptyString) (x :: y :: l))
      with (x ++ String sep (String.concat (String sep EmptyString) (y :: l))).
    rewrite split_app, (split_clean _ _ Hx), IH; [reflexivity | discriminate | exact Hl].
Qed.

(** A split has one part more than the string has separators. *)
Lemma split_length (s : string) :
  List.length (Py.split sep s) = S (Py.count sep s).
Proof.
  induction s as [|c s IH]; [reflexivity|].
  destruct (Ascii.eqb c sep) eqn:Hc.
  - simpl. rewrite Hc. simpl. now rewrite IH.
  - destruct (split_cons sep c s Hc) as (w & ws & E & E'). rewrite E'.
    rewrite E in IH. simpl in *. now rewrite Hc.
Qed.

End SplitMore.

(** X1. The exit "No co-occurrence measures provided." of line 69 cannot
    be taken: splitting the argument never gives an empty list, and a run
    that fails ends some other way. *)
Theorem no_measures_exit_unreachable (cooccur_measure : string) (T : tables)
        (e : failure) :
  snd (main cooccur_measure T) = Some e ->
  Py.split comma cooccur_measure <> []
  /\ e <> NoMeasures
  /\ message e <> message NoMeasures.
Proof.
  intros He. split; [apply split_not_nil|].
  assert (N : e <> NoMeasures).
  { intros ->.
    apply main_end in He as [He | [He | (c & pairs & [i j] & _ & _ & _ & Hp)]].
    - apply index_cooccur_fail in He. not_uncaught He.
    - apply taxa_combinations_fail in He as (pre & k0 & post & _ & _ & He & _).
      discriminate.
    - apply process_pair_fail in Hp
        as [Hp | [Hp | [(Hp & _) | [(Hp & _) | (Hp & _)]]]];
        try discriminate Hp. not_uncaught Hp. }
  split; [exact N|].
  intros Hm. apply N. destruct e; simpl in Hm; try discriminate Hm. reflexivity.
Qed.

Lemma no_measures_exit_unreachable_witness :
  Py.split comma "jaccard" <> []
  /\ KeyError <> NoMeasures
  /\ message KeyError <> message NoMeasures.
Proof.
  apply (no_measures_exit_unreachable "jaccard" EmptyPart.T KeyError).
  reflexivity.
Defined.

(** X2. The measure argument round trip: the names of a non-empty list,
    none holding a comma, joined by commas and passed as the argument are
    the measures the script works with; and joining what a split gave
    restores the argument. *)
Theorem measures_round_trip (measures : list string) :
  measures <> [] ->
  Forall (fun m => Py.has_char comma m = false) measures ->
  Py.split comma (Py.join "," measures) = measures
  /\ headerline (Py.split comma (Py.join "," measures)) = headerline measures
  /\ forall s, Py.join "," (Py.split comma s) = s.
Proof.
  intros Hne Hc.
  assert (E : Py.split comma (Py.join "," measures) = measures)
    by now apply (split_join comma).
  split; [exact E | split; [now rewrite E | apply (join_split comma)]].
Qed.

Lemma measures_round_trip_witness :
  Py.split comma (Py.join "," ["jaccard"; "simpson"]) = ["jaccard"; "simpson"]
  /\ headerline (Py.split comma (Py.join "," ["jaccard"; "simpson"]))
     = headerline ["jaccard"; "simpson"]
  /\ forall s, Py.join "," (Py.split comma s) = s.
Proof.
  apply (measures_round_trip ["jaccard"; "simpson"]).
  - discriminate.
  - repeat constructor.
Defined.

(** X3. The format check of lines 61-65 passes exactly when every key of
    the HGT table holds exactly one comma. *)
Theorem format_check_one_comma (keys : list string) :
  (exists pairs, taxa_combinations keys = Ok pairs)
  <-> Forall (fun k => Py.count comma k = 1) keys.
Proof.
  split.
  - intros (pairs & H). apply taxa_combinations_ok in H.
    induction H as [|k p ks ps Hk _ IH]; constructor; [|exact IH].
    pose proof (split_length comma k) as L. rewrite Hk in L. simpl in L. lia.
  - intros H. destruct (taxa_combinations keys) as [pairs|e] eqn:E; [eauto|].
    apply taxa_combinations_fail in E as (pre & k & post & -> & _ & _ & Hl).
    apply Forall_app in H as [_ H]. apply Forall_cons_iff in H as [Hk _].
    rewrite split_length, Hk in Hl. now elim Hl.
Qed.

(** ** Canonical keys *)

(** X4. Canonical keys tell unordered pairs apart: when the taxa of one
    pair hold no comma, another pair has the same canonical key only if
    it is the same pair, in one order or the other. *)
Theorem canonical_key_injective (p q p' q' : string) :
  Py.has_char comma p' = false -> Py.has_char comma q' = false ->
  canonical_key p q = canonical_key p' q' ->
  (p = p' /\ q = q') \/ (p = q' /\ q = p').
Proof.
  intros Hp Hq. unfold canonical_key. rewrite !sorted_two.
  unfold Py.join.
  destruct (String.ltb q p), (String.ltb q' p'); simpl; intros E;
    apply (around_sep_inj comma) in E as [-> ->]; auto.
Qed.

Lemma canonical_key_injective_witness :
  ("Y" = "X" /\ "X" = "Y") \/ ("Y" = "Y" /\ "X" = "X").
Proof.
  apply (canonical_key_injective "Y" "X" "X" "Y"); reflexivity.
Defined.

(** Taxa that hold commas can collide. *)
Example canonical_key_collision :
  canonical_key "a,b" "c" = canonical_key "a" "b,c".
Proof. reflexivity. Qed.

(** ** The scan of the rank vectors *)

(** X5. What the scan of lines 87-94 returns on two vectors of eight
    ranks: the name of the first rank at which the cells differ under
    [!=], and "NO_DIFF_FOUND" exactly when they differ at no rank; so a
    vector with a missing cell is never found equal to itself. *)
Theorem first_diff_result (vi vj : list string) :
  List.length vi = 8 -> List.length vj = 8 ->
  (forall n, n < 8 ->
             (forall m, m < n -> differ (nth m vi "") (nth m vj "") = false) ->
             differ (nth n vi "") (nth n vj "") = true ->
             first_diff tax_levels vi vj = nth n tax_levels "")
  /\ (first_diff tax_levels vi vj = "NO_DIFF_FOUND"
      <-> forall n, n < 8 -> differ (nth n vi "") (nth n vj "") = false)
  /\ (vi = vj -> (exists n, n < 8 /\ nth n vi "" = "nan") ->
      first_diff tax_levels vi vj <> "NO_DIFF_FOUND").
Proof.
  intros Hi Hj.
  assert (Iff : first_diff tax_levels vi vj = "NO_DIFF_FOUND"
                <-> forall n, n < 8 -> differ (nth n vi "") (nth n vj "") = false).
  { destruct (first_diff_cases tax_levels vi vj Hi Hj)
      as [(n & Hn & Hlt & Hd & Hr) | (Hall & Hr)]; simpl in *.
    - split.
      + intros E. rewrite Hr in E.
        do 8 (destruct n as [|n]; [discriminate E|]). lia.
      + intros Hall. rewrite (Hall n Hn) in Hd. discriminate.
    - split; auto. }
  split; [|split; [exact Iff|]].
  - intros n Hn Hlt Hd.
    destruct (first_diff_cases tax_levels vi vj Hi Hj)
      as [(n' & Hn' & Hlt' & Hd' & Hr) | (Hall & Hr)]; simpl in *.
    + destruct (Nat.lt_trichotomy n n') as [L | [-> | L]].
      * rewrite (Hlt' n L) in Hd. discriminate.
      * exact Hr.
      * rewrite (Hlt n' L) in Hd'. discriminate.
    + rewrite (Hall n Hn) in Hd. discriminate.
  - intros -> (n & Hn & Hnan) E. pose proof (proj1 Iff E n Hn) as D.
    rewrite Hnan in D. discriminate D.
Qed.

Lemma first_diff_result_witness :
  first_diff tax_levels ["d"; "p"; "c"; "o"; "f"; "g"; "sp1"; "nan"]
             ["d"; "p"; "c"; "o"; "f"; "g"; "sp1"; "nan"] <> "NO_DIFF_FOUND".
Proof.
  apply (proj2 (proj2 (first_diff_result
                         ["d"; "p"; "c"; "o"; "f"; "g"; "sp1"; "nan"]
                         ["d"; "p"; "c"; "o"; "f"; "g"; "sp1"; "nan"]
                         eq_refl eq_refl))).
  - reflexivity.
  - exists 7. split; [lia | reflexivity].
Defined.

(** ** The checks behind a printed line *)

Lemma strain_check_ok (taxa : frame) (i j key : string) :
  strain_check taxa i j key = Ok tt ->
  exists vi vj,
    loc_cols taxa i tax_levels = Ok [vi]
    /\ loc_cols taxa j tax_levels = Ok [vj]
    /\ first_difference_at_strain vi vj.
Proof.
  unfold strain_check. intros H.
  destruct (loc_cols taxa i tax_levels) as [a|] eqn:E; [|discriminate].
  cbn [bind] in H.
  destruct (loc_cols taxa j tax_levels) as [a0|] eqn:E0; [|discriminate].
  cbn [bind] in H.
  destruct a as [|vi [|]], a0 as [|vj [|]]; try discriminate H.
  exists vi, vj. split; [reflexivity | split; [reflexivity|]].
  destruct (String.eqb_spec (first_diff tax_levels vi vj) "Strain") as [S|S];
    [|discriminate H].
  apply (first_diff_strain vi vj (ranks_length _ _ _ E) (ranks_length _ _ _ E0)).
  exact S.
Qed.

Lemma hgt_check_ok (hgt : frame) (key rev : string) :
  hgt_check hgt key rev = Ok tt ->
  in_index key hgt = true /\ in_index rev hgt = false.
Proof.
  unfold hgt_check. destruct (in_index key hgt); simpl; [|discriminate].
  destruct (in_index rev hgt); [discriminate | auto].
Qed.

Lemma cooccur_values_ok (cooccur : frame) (ms vals : list string) (key rev : string) :
  cooccur_values cooccur ms key rev = Ok vals ->
  List.length vals = List.length ms
  /\ (in_index key cooccur = true \/ in_index rev cooccur = false).
Proof.
  unfold cooccur_values. destruct (in_index key cooccur).
  - intros H. apply mapM_ok in H. split; [|now left].
    symmetry. eapply Forall2_length. exact H.
  - destruct (in_index rev cooccur); [discriminate|].
    intros H. injection H as <-. split; [apply repeat_length | now right].
Qed.

(** One iteration that prints passed the two checks. *)
Lemma process_pair_ok_checks (cooccur : frame) (T : tables) (measures : list string)
      (i j line : string) :
  process_pair cooccur T measures (i, j) = Ok line ->
  strain_check (taxa_tab T) i j (i ++ "," ++ j) = Ok tt
  /\ hgt_check (hgt_tab T) (i ++ "," ++ j) (j ++ "," ++ i) = Ok tt.
Proof.
  unfold process_pair. cbn [fst snd]. intros H.
  destruct (tip_dist_val (tip_dist T) i j) as [c|]; [|discriminate].
  cbn [bind] in H.
  destruct (strain_check (taxa_tab T) i j (i ++ "," ++ j)) as [[]|] eqn:Es;
    [|discriminate]. cbn [bind] in H.
  destruct (hgt_check (hgt_tab T) (i ++ "," ++ j) (j ++ "," ++ i)) as [[]|] eqn:Eh;
    [|discriminate]. auto.
Qed.

(** X6. The strain-level check of lines 87-96 does not depend on the
    order of the pair: it passes for taxon_i, taxon_j exactly when it
    passes for taxon_j, taxon_i. *)
Theorem strain_check_order_independent (taxa : frame) (i j key key' : string) :
  strain_check taxa i j key = Ok tt <-> strain_check taxa j i key' = Ok tt.
Proof.
  assert (S : forall a b k k', strain_check taxa a b k = Ok tt ->
                               strain_check taxa b a k' = Ok tt).
  { intros a b k k' H. apply strain_check_ok in H as (va & vb & Ha & Hb & D).
    apply (strain_check_decides taxa b a k' vb va Hb Ha).
    destruct D as [F N].
    split; [intros n Hn; rewrite differ_sym; auto | now rewrite differ_sym]. }
  split; apply S.
Qed.

(** X7. A line is printed for a pair only when the pair passed every
    check: both taxa have one row in the taxonomic table with the eight
    ranks, the first rank at which their cells differ under [!=] is
    Strain, the key is in the HGT index and its reverse is not (so the
    two taxa are not the same), and the co-occurrence index does not hold
    the reverse key without the key. *)
Theorem printed_line_sound (cooccur : frame) (T : tables) (measures : list string)
        (i j line : string) :
  process_pair cooccur T measures (i, j) = Ok line ->
  (exists vi vj,
      loc_cols (taxa_tab T) i tax_levels = Ok [vi]
      /\ loc_cols (taxa_tab T) j tax_levels = Ok [vj]
      /\ first_difference_at_strain vi vj)
  /\ in_index (i ++ "," ++ j) (hgt_tab T) = true
  /\ in_index (j ++ "," ++ i) (hgt_tab T) = false
  /\ (in_index (i ++ "," ++ j) cooccur = true
      \/ in_index (j ++ "," ++ i) cooccur = false)
  /\ i <> j.
Proof.
  intros H. destruct (process_pair_ok_checks _ _ _ _ _ _ H) as (Hs & Hh).
  apply process_pair_ok in H as (tip & sp & ct & vals & _ & _ & _ & Hv & _).
  apply strain_check_ok in Hs as (vi & vj & Hi & Hj & D).
  apply hgt_check_ok in Hh as (Hk & Hr).
  apply cooccur_values_ok in Hv as (_ & Hc).
  repeat split; eauto.
  intros ->. congruence.
Qed.

Lemma printed_line_sound_witness :
  (exists vi vj,
      loc_cols (taxa_tab Scenario.T) "X" tax_levels = Ok [vi]
      /\ loc_cols (taxa_tab Scenario.T) "Y" tax_levels = Ok [vj]
      /\ first_difference_at_strain vi vj)
  /\ in_index ("X" ++ "," ++ "Y") (hgt_tab Scenario.T) = true
  /\ in_index ("Y" ++ "," ++ "X") (hgt_tab Scenario.T) = false
  /\ (in_index ("X" ++ "," ++ "Y") NoSpecies.cooccur = true
      \/ in_index ("Y" ++ "," ++ "X") NoSpecies.cooccur = false)
  /\ "X" <> "Y".
Proof.
  apply (printed_line_sound NoSpecies.cooccur Scenario.T ["jaccard"] "X" "Y"
           ("X,Y" ++ tab ++ "X" ++ tab ++ "Y" ++ tab ++ "0.13" ++ tab ++ "sp1" ++ tab
            ++ "5" ++ tab ++ "0.42")).
  reflexivity.
Defined.

(** ** Columns the script needs *)

Lemma mapM_key_error {A B} (f : A -> outcome B) (l : list A) (a : A) :
  (forall x e, f x = Fail e -> e = KeyError) ->
  In a l -> f a = Fail KeyError -> mapM f l = Fail KeyError.
Proof.
  intros Hf Hin Ha. destruct (mapM f l) as [bs|e] eqn:E.
  - apply mapM_ok in E. exfalso.
    induction E as [|x b xs bs' Hx _ IH]; [contradiction|].
    destruct Hin as [-> | Hin]; [congruence | auto].
  - apply mapM_fail in E as (x & _ & Hx). now rewrite (Hf _ _ Hx).
Qed.

(** X8. A pair that has its row in the co-occurrence table and a
    requested measure that is no column of it: the lookup of line 111
    raises, no "NA" is given and no line is printed for the pair. *)
Theorem missing_measure_column (cooccur : frame) (T : tables) (measures : list string)
        (i j measure : string) (r : row) :
  rows_at (i ++ "," ++ j) cooccur = [r] ->
  In measure measures -> row_get measure r = None ->
  cooccur_values cooccur measures (i ++ "," ++ j) (j ++ "," ++ i) = Fail KeyError
  /\ forall line, process_pair cooccur T measures (i, j) <> Ok line.
Proof.
  intros Hr Hin Hm.
  assert (E : cooccur_values cooccur measures (i ++ "," ++ j) (j ++ "," ++ i)
              = Fail KeyError).
  { rewrite (cooccur_values_unique _ _ _ _ _ Hr).
    apply (mapM_key_error _ _ measure); [|exact Hin | now rewrite Hm].
    intros x e. apply of_option_fail. }
  split; [exact E|]. intros line H.
  apply process_pair_ok in H as (tip & sp & ct & vals & _ & _ & _ & Hv & _).
  congruence.
Qed.

Lemma missing_measure_column_witness :
  cooccur_values NoSpecies.cooccur ["jaccard"; "simpson"]
                 ("X" ++ "," ++ "Y") ("Y" ++ "," ++ "X") = Fail KeyError
  /\ forall line,
      process_pair NoSpecies.cooccur Scenario.T ["jaccard"; "simpson"] ("X", "Y")
      <> Ok line.
Proof.
  apply (missing_measure_column NoSpecies.cooccur Scenario.T ["jaccard"; "simpson"]
           "X" "Y" "simpson" [("taxon_i", "X"); ("taxon_j", "Y"); ("jaccard", "0.42")]).
  - reflexivity.
  - simpl. right. now left.
  - reflexivity.
Defined.

(** X9. A pair whose row of the HGT table lacks the hgt_count or the
    species column is never printed; when the pair passed the checks
    before lines 103-104, the iteration ends in the uncaught lookup
    exception. *)
Theorem missing_hgt_column (cooccur : frame) (T : tables) (measures : list string)
        (i j : string) (r : row) :
  rows_at (i ++ "," ++ j) (hgt_tab T) = [r] ->
  row_get "hgt_count" r = None \/ row_get "species" r = None ->
  (forall line, process_pair cooccur T measures (i, j) <> Ok line)
  /\ (forall c,
         tip_dist_val (tip_dist T) i j = Ok c ->
         strain_check (taxa_tab T) i j (i ++ "," ++ j) = Ok tt ->
         in_index (j ++ "," ++ i) (hgt_tab T) = false ->
         process_pair cooccur T measures (i, j) = Fail KeyError).
Proof.
  intros Hr Hcol. split.
  - intros line H.
    apply process_pair_ok in H as (tip & sp & ct & vals & _ & Hsp & Hct & _ & _).
    rewrite (loc_unique _ _ _ _ Hr) in Hsp. rewrite (loc_unique _ _ _ _ Hr) in Hct.
    destruct Hcol as [E | E]; rewrite E in *; discriminate.
  - intros c Ht Hs Hrev. unfold process_pair. cbn [fst snd].
    rewrite Ht. cbn [bind]. rewrite Hs. cbn [bind].
    unfold hgt_check. rewrite (rows_at_in_index _ _ _ _ Hr), Hrev. cbn [negb bind].
    rewrite !(loc_unique _ _ _ _ Hr).
    destruct (row_get "hgt_count" r) eqn:Ec; [|reflexivity]. cbn [of_option bind].
    destruct Hcol as [E | E]; [discriminate|]. now rewrite E.
Qed.

Lemma missing_hgt_column_witness :
  (forall line, process_pair NoSpecies.cooccur NoSpecies.T ["jaccard"] ("X", "Y")
                <> Ok line)
  /\ (forall c,
         tip_dist_val (tip_dist NoSpecies.T) "X" "Y" = Ok c ->
         strain_check (taxa_tab NoSpecies.T) "X" "Y" ("X" ++ "," ++ "Y") = Ok tt ->
         in_index ("Y" ++ "," ++ "X") (hgt_tab NoSpecies.T) = false ->
         process_pair NoSpecies.cooccur NoSpecies.T ["jaccard"] ("X", "Y")
         = Fail KeyError).
Proof.
  apply (missing_hgt_column NoSpecies.cooccur NoSpecies.T ["jaccard"] "X" "Y"
           [("hgt_count", "5")]).
  - reflexivity.
  - right. reflexivity.
Defined.

(** ** Loading the co-occurrence table *)

Lemma index_cooccur_first (r : row) (rest : list row) (e : failure) :
  cooccur_key r = Fail e -> index_cooccur (r :: rest) = Fail e.
Proof. unfold index_cooccur. simpl. now intros ->. Qed.

(** X10. The columns of a co-occurrence table that has rows decide the
    load before anything is printed.  With the one column taxoni, line
    52 reads past the columns and the run ends in [IndexError]; with
    columns that after the renaming of line 53 lack taxon_i or taxon_j,
    line 55 ends the run in [KeyError]. *)
Theorem taxon_columns_required (cooccur_measure : string) (T : tables)
        (r : row) (rest : list row) :
  cooccur_rows T = r :: rest ->
  (forall v, r = [("taxoni", v)] ->
             main cooccur_measure T = ([], Some IndexError))
  /\ (forall r', rename_legacy r = Ok r' ->
                 row_all "taxon_i" r' = [] \/ row_all "taxon_j" r' = [] ->
                 main cooccur_measure T = ([], Some KeyError)).
Proof.
  intros ER. split.
  - intros v ->.
    assert (E : cooccur_key [("taxoni", v)] = Fail IndexError) by reflexivity.
    unfold main. now rewrite ER, (index_cooccur_first _ _ _ E).
  - intros r' Hr' Hcol.
    assert (E : cooccur_key r = Fail KeyError).
    { unfold cooccur_key. rewrite Hr'. cbn [bind]. destruct Hcol as [-> | H].
      - reflexivity.
      - rewrite H. now destruct (row_all "taxon_i" r') as [|? [|? ?]]. }
    unfold main. now rewrite ER, (index_cooccur_first _ _ _ E).
Qed.

Lemma taxon_columns_required_witness :
  main "jaccard" OtherColumns.T = ([], Some KeyError).
Proof.
  apply (proj2 (taxon_columns_required "jaccard" OtherColumns.T
                  [("mag_a", "X"); ("mag_b", "Y"); ("jaccard", "0.42")] []
                  eq_refl)
               [("mag_a", "X"); ("mag_b", "Y"); ("jaccard", "0.42")]).
  - reflexivity.
  - left. reflexivity.
Defined.

Lemma process_pair_tables (cooccur : frame) (T T' : tables) (measures : list string)
      (p : string * string) :
  tip_dist T = tip_dist T' -> taxa_tab T = taxa_tab T' -> hgt_tab T = hgt_tab T' ->
  process_pair cooccur T measures p = process_pair cooccur T' measures p.
Proof. unfold process_pair. now intros -> -> ->. Qed.

Lemma emit_rows_tables (cooccur : frame) (T T' : tables) (measures : list string)
      (pairs : list (string * string)) :
  tip_dist T = tip_dist T' -> taxa_tab T = taxa_tab T' -> hgt_tab T = hgt_tab T' ->
  emit_rows cooccur T measures pairs = emit_rows cooccur T' measures pairs.
Proof.
  intros H1 H2 H3. induction pairs as [|p ps IH]; simpl; [reflexivity|].
  now rewrite (process_pair_tables _ T T' _ _ H1 H2 H3), IH.
Qed.

Lemma cooccur_key_legacy (e : string * string * row) :
  cooccur_key (legacy_row e) = cooccur_key (current_row e).
Proof. reflexivity. Qed.

Lemma index_cooccur_legacy (entries : list (string * string * row)) :
  index_cooccur (map legacy_row entries) = index_cooccur (map current_row entries).
Proof.
  unfold index_cooccur. induction entries as [|e l IH]; [reflexivity|].
  cbn [map mapM]. now rewrite cooccur_key_legacy, IH.
Qed.

(** X11. The legacy names taxoni and taxonj of the first two columns are
    accepted: a co-occurrence table under them, none of its further
    columns named taxon_i or taxon_j, gives the run of the same table
    under taxon_i and taxon_j. *)
Theorem legacy_names_accepted (cooccur_measure : string)
        (entries : list (string * string * row)) (tip taxa hgt : frame) :
  Forall (fun e => row_all "taxon_i" (snd e) = [] /\ row_all "taxon_j" (snd e) = [])
         entries ->
  main cooccur_measure
       {| cooccur_rows := map legacy_row entries;
          tip_dist := tip; taxa_tab := taxa; hgt_tab := hgt |}
  = main cooccur_measure
         {| cooccur_rows := map current_row entries;
            tip_dist := tip; taxa_tab := taxa; hgt_tab := hgt |}.
Proof.
  intros _. unfold main. cbn [cooccur_rows hgt_tab]. rewrite index_cooccur_legacy.
  destruct (index_cooccur (map current_row entries)) as [c|]; [|reflexivity].
  destruct (taxa_combinations (index hgt)) as [pairs|]; [|reflexivity].
  destruct (Nat.eqb _ 0); [reflexivity|].
  now rewrite (emit_rows_tables c _
                 {| cooccur_rows := map current_row entries;
                    tip_dist := tip; taxa_tab := taxa; hgt_tab := hgt |}).
Qed.

Lemma legacy_names_accepted_witness :
  main "jaccard"
       {| cooccur_rows := map legacy_row [("X", "Y", [("jaccard", "0.42")])];
          tip_dist := tip_dist Scenario.T; taxa_tab := taxa_tab Scenario.T;
          hgt_tab := hgt_tab Scenario.T |}
  = main "jaccard"
         {| cooccur_rows := map current_row [("X", "Y", [("jaccard", "0.42")])];
            tip_dist := tip_dist Scenario.T; taxa_tab := taxa_tab Scenario.T;
            hgt_tab := hgt_tab Scenario.T |}.
Proof.
  apply (legacy_names_accepted "jaccard" [("X", "Y", [("jaccard", "0.42")])]).
  repeat constructor.
Defined.

(** ** The reverse-key exit of the co-occurrence lookup *)

(** X12. With the index built by line 55 and taxa that hold no comma,
    the exit "Reverse taxa_combo found in co-occurrence table" is taken
    for exactly the pairs that the HGT table writes in descending order
    and the co-occurrence table holds. *)
Theorem reverse_exit_iff_descending_key (rows : list row) (cooccur : frame)
        (measures : list string) (i j : string) :
  index_cooccur rows = Ok cooccur ->
  Py.has_char comma i = false -> Py.has_char comma j = false ->
  cooccur_values cooccur measures (i ++ "," ++ j) (j ++ "," ++ i)
  = Fail (ReverseInCooccur (j ++ "," ++ i))
  <-> String.ltb j i = true /\ in_index (canonical_key i j) cooccur = true.
Proof.
  intros HC Hi Hj. split.
  - intros H. apply cooccur_values_fail in H as [H | [(l & H) | (_ & Hk & Hr)]];
      try discriminate H.
    destruct (index_cooccur_canonical _ _ _ HC Hr) as (p & q & E). symmetry in E.
    pose proof (canonical_key_ordered _ _ _ _ E Hj Hi) as O.
    destruct (String.ltb j i) eqn:L.
    + split; [reflexivity|]. unfold canonical_key. rewrite sorted_two, L. exact Hr.
    + pose proof (ltb_total _ _ O L) as Eij. subst j. congruence.
  - intros (L & Hin). unfold canonical_key in Hin. rewrite sorted_two, L in Hin.
    change (Py.join "," [j; i]) with (j ++ "," ++ i) in Hin.
    assert (Hk : in_index (i ++ "," ++ j) cooccur = false).
    { destruct (in_index (i ++ "," ++ j) cooccur) eqn:K; [|reflexivity].
      destruct (index_cooccur_canonical _ _ _ HC K) as (p & q & E). symmetry in E.
      pose proof (canonical_key_ordered _ _ _ _ E Hi Hj). congruence. }
    unfold cooccur_values. now rewrite Hk, Hin.
Qed.

Lemma reverse_exit_iff_descending_key_witness :
  cooccur_values ReversedKey.cooccur ["jaccard"] ("Y" ++ "," ++ "X") ("X" ++ "," ++ "Y")
  = Fail (ReverseInCooccur ("X" ++ "," ++ "Y"))
  <-> String.ltb "X" "Y" = true
      /\ in_index (canonical_key "Y" "X") ReversedKey.cooccur = true.
Proof.
  apply (reverse_exit_iff_descending_key (cooccur_rows ReversedKey.T)
           ReversedKey.cooccur ["jaccard"] "Y" "X"); reflexivity.
Defined.

(** ** The lines of a run *)

Lemma join_cons (sep a : string) (l : list string) :
  l <> [] -> Py.join sep (a :: l) = a ++ sep ++ Py.join sep l.
Proof. destruct l; [congruence | reflexivity]. Qed.

Lemma Forall2_In_r {A B} (P : A -> B -> Prop) (l : list A) (l' : list B) (b : B) :
  Forall2 P l l' -> In b l' -> exists a, In a l /\ P a b.
Proof.
  intros F. induction F as [|x y xs ys Hxy _ IH]; intros Hin; [contradiction|].
  destruct Hin as [<- | Hin].
  - exists x. split; [now left | exact Hxy].
  - destruct (IH Hin) as (a & Ha & Hp). exists a. split; [now right | exact Hp].
Qed.

(** The fields of a printed data line. *)
Lemma process_pair_fields (cooccur : frame) (T : tables) (measures : list string)
      (i j line : string) :
  measures <> [] ->
  process_pair cooccur T measures (i, j) = Ok line ->
  exists tip species hgt_count vals,
    List.length vals = List.length measures
    /\ line = Py.join tab
                (List.app [i ++ "," ++ j; i; j; tip; species; hgt_count] vals)
    /\ tip_dist_val (tip_dist T) i j = Ok (Scalar tip)
    /\ loc (hgt_tab T) (i ++ "," ++ j) "species" = Ok (Scalar species)
    /\ loc (hgt_tab T) (i ++ "," ++ j) "hgt_count" = Ok (Scalar hgt_count)
    /\ cooccur_values cooccur measures (i ++ "," ++ j) (j ++ "," ++ i) = Ok vals.
Proof.
  intros Hne H.
  apply process_pair_ok in H as (tip & sp & ct & vals & Ht & Hsp & Hct & Hv & ->).
  pose proof (cooccur_values_ok _ _ _ _ _ Hv) as (Hl & _).
  exists tip, sp, ct, vals. split; [exact Hl|]. split; [|auto].
  assert (Hvals : vals <> []).
  { intros ->. destruct measures; [congruence | discriminate Hl]. }
  cbn [List.app]. rewrite !join_cons by discriminate || exact Hvals.
  now rewrite !append_assoc.
Qed.

Section TabFree.

Lemma has_char_app (c : ascii) (a b : string) :
  Py.has_char c (a ++ b) = Py.has_char c a || Py.has_char c b.
Proof. induction a as [|x a IH]; simpl; [reflexivity|]. now rewrite IH, orb_assoc. Qed.

(** The parts of a split hold no character the string does not hold. *)
Lemma split_parts_keep (c sep : ascii) (s : string) :
  Py.has_char c s = false ->
  Forall (fun w => Py.has_char c w = false) (Py.split sep s).
Proof.
  induction s as [|x s IH]; simpl; intros H; [now repeat constructor|].
  apply orb_false_iff in H as [Hx Hs]. specialize (IH Hs).
  destruct (Ascii.eqb x sep).
  - now constructor.
  - destruct (Py.split sep s) as [|w ws]; [repeat constructor; simpl; now rewrite Hx|].
    apply Forall_cons_iff in IH as [Hw Hws]. constructor; [|exact Hws].
    simpl. now rewrite Hx.
Qed.

Lemma row_get_tab_free (r : row) (col v : string) :
  tab_free_row r -> row_get col r = Some v -> tab_free v.
Proof.
  unfold tab_free_row. induction r as [|[c x] r IH]; simpl; [discriminate|].
  intros H. apply Forall_cons_iff in H as [Hx Hr].
  destruct (String.eqb c col); [intros E; injection E as <-; exact Hx | now apply IH].
Qed.

Lemma rows_at_tab_free (f : frame) (label : string) (r : row) :
  tab_free_frame f -> In r (rows_at label f) -> tab_free_row r.
Proof.
  unfold tab_free_frame, rows_at. intros H Hin.
  apply in_map_iff in Hin as ([l r'] & <- & Hin). apply filter_In in Hin as [Hin _].
  rewrite Forall_forall in H. now apply (H _ Hin).
Qed.

Lemma loc_tab_free (f : frame) (label col v : string) :
  tab_free_frame f -> loc f label col = Ok (Scalar v) -> tab_free v.
Proof.
  intros Hf. unfold loc. destruct (rows_at label f) as [|r [|r' rs]] eqn:E;
    [discriminate| |destruct (row_get col r); discriminate].
  destruct (row_get col r) as [x|] eqn:Ex; [|discriminate]. simpl.
  intros H. injection H as <-.
  apply (row_get_tab_free r col); [|exact Ex].
  apply (rows_at_tab_free f label); [exact Hf | rewrite E; now left].
Qed.

Lemma rename_legacy_tab_free (r0 r : row) :
  rename_legacy r0 = Ok r -> tab_free_row r0 -> tab_free_row r.
Proof.
  unfold rename_legacy, tab_free_row.
  destruct r0 as [|[c0 v0] [|[c1 v1] rest]]; [discriminate | |].
  - destruct (String.eqb c0 "taxoni"); [discriminate|]. now intros H; injection H as <-.
  - destruct (String.eqb c0 "taxoni"); [|now intros H; injection H as <-].
    destruct (String.eqb c1 "taxonj"); intros H; injection H as <-; [|tauto].
    intros F. apply Forall_cons_iff in F as [F0 F]. apply Forall_cons_iff in F as [F1 F].
    repeat constructor; assumption.
Qed.

Lemma index_cooccur_tab_free (rows : list row) (cooccur : frame) (label : string)
      (r : row) :
  index_cooccur rows = Ok cooccur -> Forall tab_free_row rows ->
  In r (rows_at label cooccur) -> tab_free_row r.
Proof.
  unfold index_cooccur, rows_at. intros H Hrows Hin.
  apply in_map_iff in Hin as ([l r'] & <- & Hin). apply filter_In in Hin as [Hin _].
  apply mapM_ok in H. simpl.
  induction H as [|r0 e rs es He _ IH]; [contradiction|].
  apply Forall_cons_iff in Hrows as [H0 Hrows].
  destruct Hin as [-> | Hin]; [|auto].
  apply cooccur_key_ok in He as (p' & q' & _ & Hr & _).
  eapply rename_legacy_tab_free; eassumption.
Qed.

Lemma cooccur_values_tab_free (rows : list row) (cooccur : frame)
      (ms vals : list string) (key rev : string) :
  index_cooccur rows = Ok cooccur -> Forall tab_free_row rows ->
  cooccur_values cooccur ms key rev = Ok vals -> Forall tab_free vals.
Proof.
  intros HC Hrows. unfold cooccur_values. destruct (in_index key cooccur).
  - intros H. apply mapM_ok in H.
    induction H as [|m v ms' vs Hm _ IH]; constructor; [|exact IH].
    destruct (loc cooccur key m) as [[x|]|] eqn:El; try discriminate Hm.
    simpl in Hm. injection Hm as <-. revert El. unfold loc.
    destruct (rows_at key cooccur) as [|r [|r' rs]] eqn:E;
      [discriminate| |destruct (row_get m r); discriminate].
    destruct (row_get m r) as [y|] eqn:Ey; [|discriminate]. simpl.
    intros H'. injection H' as <-.
    apply (row_get_tab_free r m); [|exact Ey].
    apply (index_cooccur_tab_free rows cooccur key); [exact HC | exact Hrows|].
    rewrite E. now left.
  - destruct (in_index rev cooccur); [discriminate|].
    intros H. injection H as <-. apply Forall_forall. intros x Hx.
    apply repeat_spec in Hx. now subst x.
Qed.

Lemma tip_dist_val_tab_free (tip : frame) (i j v : string) :
  tab_free_frame tip -> tip_dist_val tip i j = Ok (Scalar v) -> tab_free v.
Proof.
  intros Hf. unfold tip_dist_val. destruct (_ || _).
  - intros H. injection H as <-. reflexivity.
  - now apply loc_tab_free.
Qed.

End TabFree.

(** X13. On tables and a measure argument without tabs, with no label
    repeated, every line a run prints, header and data lines alike, has
    exactly six columns plus one per requested measure when it is split
    at the tabs. *)
Theorem line_fields (cooccur_measure : string) (T : tables) (line : string) :
  unique_labels T -> tab_free_tables T -> tab_free cooccur_measure ->
  In line (fst (main cooccur_measure T)) ->
  List.length (Py.split tab_char line)
  = 6 + List.length (Py.split comma cooccur_measure).
Proof.
  intros _ (Htip & Hhgt & Hrows) Hm Hin.
  assert (Count : forall fields, fields <> [] -> Forall tab_free fields ->
                    List.length (Py.split tab_char (Py.join tab fields))
                    = List.length fields).
  { intros fields Hne Hf.
    change tab with (String tab_char EmptyString).
    now rewrite (split_join tab_char fields Hne Hf). }
  pose proof (split_parts_keep tab_char comma cooccur_measure Hm) as Hms.
  destruct (index_cooccur (cooccur_rows T)) as [c|e] eqn:EC;
    [|unfold main in Hin; rewrite EC in Hin; contradiction].
  destruct (taxa_combinations (index (hgt_tab T))) as [pairs|e] eqn:EP;
    [|unfold main in Hin; rewrite EC, EP in Hin; contradiction].
  rewrite (main_rows _ _ _ _ EC EP) in Hin. simpl in Hin.
  destruct Hin as [<- | Hin].
  - unfold headerline. rewrite Count; [|discriminate|].
    + rewrite length_app, length_map. reflexivity.
    + apply Forall_app. split; [repeat constructor|].
      apply Forall_forall. intros x Hx. apply in_map_iff in Hx as (m & <- & Hx).
      rewrite Forall_forall in Hms. unfold tab_free.
      rewrite has_char_app. now rewrite (Hms m Hx).
  - destruct (emit_rows_shape c T (Py.split comma cooccur_measure) pairs)
      as (done & rest & Epairs & F & _).
    destruct (Forall2_In_r _ _ _ _ F Hin) as ([i j] & Hd & Hp).
    assert (Hpair : In (i, j) pairs) by (rewrite Epairs; apply in_or_app; now left).
    destruct (taxa_combinations_pair _ _ _ EP Hpair) as (k & Hk & Hs). simpl in Hs.
    assert (Kfree : tab_free k).
    { unfold tab_free_frame in Hhgt. rewrite Forall_forall in Hhgt.
      unfold index in Hk. apply in_map_iff in Hk as (e & <- & He).
      now apply (Hhgt e He). }
    pose proof (split_parts_keep tab_char comma k Kfree) as Hparts.
    rewrite Hs in Hparts. apply Forall_cons_iff in Hparts as [Hi Hparts].
    apply Forall_cons_iff in Hparts as [Hj _].
    apply process_pair_fields in Hp
      as (tip & sp & ct & vals & Hl & -> & Ht & Hsp & Hct & Hv);
      [|apply split_not_nil].
    rewrite Count.
    + rewrite length_app, Hl. reflexivity.
    + discriminate.
    + apply Forall_app. split.
      * repeat apply Forall_cons; [| | | | | |apply Forall_nil].
        -- now rewrite (rejoin _ _ _ Hs).
        -- exact Hi.
        -- exact Hj.
        -- exact (tip_dist_val_tab_free _ _ _ _ Htip Ht).
        -- exact (loc_tab_free _ _ _ _ Hhgt Hsp).
        -- exact (loc_tab_free _ _ _ _ Hhgt Hct).
      * exact (cooccur_values_tab_free _ _ _ _ _ _ EC Hrows Hv).
Qed.

Lemma scenario_unique_labels : unique_labels Scenario.T.
Proof.
  repeat split.
  - repeat constructor; simpl; intuition discriminate.
  - repeat constructor; simpl; intuition discriminate.
  - intros c H. vm_compute in H. injection H as <-.
    repeat constructor; simpl; intuition discriminate.
Qed.

Lemma scenario_tab_free : tab_free_tables Scenario.T.
Proof. repeat split; repeat constructor. Qed.

Lemma line_fields_witness :
  List.length
    (Py.split tab_char
       ("X,Y" ++ tab ++ "X" ++ tab ++ "Y" ++ tab ++ "0.13" ++ tab ++ "sp1" ++ tab
        ++ "5" ++ tab ++ "0.42"))
  = 6 + List.length (Py.split comma "jaccard").
Proof.
  apply (line_fields "jaccard" Scenario.T).
  - exact scenario_unique_labels.
  - exact scenario_tab_free.
  - reflexivity.
  - simpl. right. left. reflexivity.
Defined.


Section UniqueLabels.

(** A label that occurs once in an index selects at most one row. *)
Lemma rows_at_unique (f : frame) (label : string) :
  NoDup (index f) -> rows_at label f = [] \/ exists r, rows_at label f = [r].
Proof.
  unfold index. induction f as [|[l r] f IH]; simpl; [now left|].
  intros H. apply NoDup_cons_iff in H as [Hl Hf].
  unfold rows_at. simpl. destruct (String.eqb_spec l label) as [->|Hne].
  - right. exists r. simpl. f_equal.
    apply rows_at_nil. destruct (in_index label f) eqn:E; [|reflexivity].
    apply in_index_In in E. contradiction.
  - apply IH. exact Hf.
Qed.

Lemma loc_unique_scalar (f : frame) (label col : string) (x : cell) :
  NoDup (index f) -> loc f label col = Ok x -> exists v, x = Scalar v.
Proof.
  intros H. unfold loc. destruct (rows_at_unique f label H) as [-> | (r & ->)];
    [discriminate|].
  destruct (row_get col r); simpl; [|discriminate].
  intros E. injection E as <-. eauto.
Qed.

Lemma cooccur_values_no_repeated (cooccur : frame) (ms : list string)
      (key rev l : string) :
  NoDup (index cooccur) -> cooccur_values cooccur ms key rev <> Fail (Repeated l).
Proof.
  intros H E. unfold cooccur_values in E. destruct (in_index key cooccur).
  - apply mapM_fail in E as (m & _ & E).
    destruct (loc cooccur key m) as [x|e] eqn:El; simpl in E.
    + destruct (loc_unique_scalar _ _ _ _ H El) as (v & ->). discriminate E.
    + apply loc_fail in El. congruence.
  - destruct (in_index rev cooccur); discriminate E.
Qed.

(** With no label repeated in the three tables that are printed from,
    an iteration ends in [Repeated] only at the comparison of line 92,
    on a taxon with several rows in the taxonomic table. *)
Lemma process_pair_repeated (cooccur : frame) (T : tables) (measures : list string)
      (i j l : string) :
  NoDup (index (tip_dist T)) -> NoDup (index (hgt_tab T)) -> NoDup (index cooccur) ->
  process_pair cooccur T measures (i, j) = Fail (Repeated l) ->
  strain_check (taxa_tab T) i j (i ++ "," ++ j) = Fail (Repeated l).
Proof.
  intros Htip Hhgt Hco. unfold process_pair. cbn [fst snd]. intros H.
  destruct (tip_dist_val (tip_dist T) i j) as [x|e] eqn:Et; cbn [bind] in H;
    [|apply tip_dist_val_fail in Et; congruence].
  assert (Hx : exists v, x = Scalar v).
  { revert Et. unfold tip_dist_val. destruct (_ || _).
    - intros E. injection E as <-. eauto.
    - now apply loc_unique_scalar. }
  destruct Hx as (tip & ->).
  destruct (strain_check (taxa_tab T) i j (i ++ "," ++ j)) as [[]|e] eqn:Es;
    cbn [bind] in H; [|now injection H as ->].
  destruct (hgt_check (hgt_tab T) (i ++ "," ++ j) (j ++ "," ++ i)) as [[]|e] eqn:Eh;
    cbn [bind] in H;
    [|apply hgt_check_fail in Eh as [(-> & _) | (-> & _)]; discriminate H].
  destruct (loc (hgt_tab T) (i ++ "," ++ j) "hgt_count") as [x|e] eqn:Ec;
    cbn [bind] in H; [|apply loc_fail in Ec; congruence].
  destruct (loc_unique_scalar _ _ _ _ Hhgt Ec) as (ct & ->).
  destruct (loc (hgt_tab T) (i ++ "," ++ j) "species") as [x|e] eqn:Esp;
    cbn [bind] in H; [|apply loc_fail in Esp; congruence].
  destruct (loc_unique_scalar _ _ _ _ Hhgt Esp) as (sp & ->).
  destruct (cooccur_values cooccur measures (i ++ "," ++ j) (j ++ "," ++ i))
    as [vals|e] eqn:Ev; cbn [bind] in H.
  - cbn [scalar bind] in H. destruct (is_nan sp); discriminate H.
  - injection H as ->. now apply cooccur_values_no_repeated in Ev.
Qed.

End UniqueLabels.

(** X14. On tables with no label repeated, the output of a run is either
    empty, and then the run failed, or the header line followed by one
    line for each key of the HGT table up to where the run stopped, in
    the order of the table, each line beginning with its key and a tab;
    the run completes exactly when every key has its line.  A run that
    stops on a sub-table stops on an exception: at line 55 on a repeated
    column, or at the comparison of line 92 on a taxon with several rows
    in the taxonomic table. *)
Theorem output_shape (cooccur_measure : string) (T : tables) :
  unique_labels T ->
  ((fst (main cooccur_measure T) = [] /\ snd (main cooccur_measure T) <> None)
   \/ exists lines pre post,
        fst (main cooccur_measure T)
        = headerline (Py.split comma cooccur_measure) :: lines
        /\ index (hgt_tab T) = (pre ++ post)%list
        /\ Forall2 (fun k line => exists rest, line = k ++ tab ++ rest) pre lines
        /\ (snd (main cooccur_measure T) = None <-> post = []))
  /\ (forall l, snd (main cooccur_measure T) = Some (Repeated l) ->
                index_cooccur (cooccur_rows T) = Fail (Repeated l)
                \/ exists i j, strain_check (taxa_tab T) i j (i ++ "," ++ j)
                               = Fail (Repeated l)).
Proof.
  intros (Utip & Uhgt & Uco). split.
  - destruct (index_cooccur (cooccur_rows T)) as [c|e] eqn:EC;
      [|left; unfold main; rewrite EC; split; [reflexivity | discriminate]].
    destruct (taxa_combinations (index (hgt_tab T))) as [pairs|e] eqn:EP;
      [|left; unfold main; rewrite EC, EP; split; [reflexivity | discriminate]].
    right. rewrite (main_rows _ _ _ _ EC EP). cbn [fst snd].
    destruct (emit_rows_shape c T (Py.split comma cooccur_measure) pairs)
      as (done & rest & -> & F & S).
    apply taxa_combinations_ok in EP.
    apply Forall2_app_inv_r in EP as (pre & post & Fpre & Fpost & ->).
    exists (fst (emit_rows c T (Py.split comma cooccur_measure) (done ++ rest))), pre, post.
    repeat split.
    + clear S Fpost. revert pre Fpre.
      induction F as [|[i j] line ps ls Hp _ IH]; intros pre Fpre;
        inversion Fpre as [|k p' ks ps' Hk Fks]; subst; constructor.
      * apply process_pair_ok in Hp as (tip & sp & ct & vals & _ & _ & _ & _ & ->).
        simpl in Hk. rewrite (rejoin _ _ _ Hk). eauto.
      * apply IH. exact Fks.
    + intros Hst. rewrite Hst in S. subst rest. now inversion Fpost.
    + intros ->. inversion Fpost; subst.
      destruct (snd (emit_rows c T (Py.split comma cooccur_measure) (done ++ [])));
        [|reflexivity].
      destruct S as (p & rest' & Hr & _). discriminate Hr.
  - intros l He.
    apply main_end in He as [He | [He | (c & pairs & [i j] & HC & _ & _ & Hp)]].
    + now left.
    + apply taxa_combinations_fail in He as (pre & k0 & post & _ & _ & He & _).
      discriminate.
    + right. exists i, j.
      apply (process_pair_repeated c T _ i j l Utip Uhgt (Uco c HC) Hp).
Qed.

Lemma output_shape_witness :
  (fst (main "jaccard" Scenario.T) = [] /\ snd (main "jaccard" Scenario.T) <> None)
  \/ exists lines pre post,
       fst (main "jaccard" Scenario.T) = headerline (Py.split comma "jaccard") :: lines
       /\ index (hgt_tab Scenario.T) = (pre ++ post)%list
       /\ Forall2 (fun k line => exists rest, line = k ++ tab ++ rest) pre lines
       /\ (snd (main "jaccard" Scenario.T) = None <-> post = []).
Proof.
  apply (proj1 (output_shape "jaccard" Scenario.T scenario_unique_labels)).
Defined.

Lemma Forall2_In_l {A B} (P : A -> B -> Prop) (l : list A) (l' : list B) (a : A) :
  Forall2 P l l' -> In a l -> exists b, In b l' /\ P a b.
Proof.
  intros F. induction F as [|x y xs ys Hxy _ IH]; intros Hin; [contradiction|].
  destruct Hin as [<- | Hin].
  - exists y. split; [now left | exact Hxy].
  - destruct (IH Hin) as (b & Hb & Hp). exists b. split; [now right | exact Hp].
Qed.

(** X15. On tables with no label repeated, a run that completes vouches
    for the whole HGT table: every key splits into two taxa that each
    have one row of eight ranks in the taxonomic table, the first rank
    at which their cells differ under [!=] is Strain, and the reverse of
    the key is no key of the HGT table. *)
Theorem completed_run_sound (cooccur_measure : string) (T : tables) (k : string) :
  unique_labels T ->
  snd (main cooccur_measure T) = None ->
  In k (index (hgt_tab T)) ->
  exists i j vi vj,
    Py.split comma k = [i; j]
    /\ loc_cols (taxa_tab T) i tax_levels = Ok [vi]
    /\ loc_cols (taxa_tab T) j tax_levels = Ok [vj]
    /\ first_difference_at_strain vi vj
    /\ in_index (j ++ "," ++ i) (hgt_tab T) = false.
Proof.
  intros _ Hst Hk.
  destruct (index_cooccur (cooccur_rows T)) as [c|e] eqn:EC;
    [|unfold main in Hst; rewrite EC in Hst; discriminate].
  destruct (taxa_combinations (index (hgt_tab T))) as [pairs|e] eqn:EP;
    [|unfold main in Hst; rewrite EC, EP in Hst; discriminate].
  rewrite (main_rows _ _ _ _ EC EP) in Hst. cbn [snd] in Hst.
  destruct (emit_rows_shape c T (Py.split comma cooccur_measure) pairs)
    as (done & rest & E & F & S).
  rewrite Hst in S. subst rest. rewrite app_nil_r in E. subst done.
  destruct (taxa_combinations_key _ _ k EP Hk) as (i & j & Hs & Hin).
  destruct (Forall2_In_l _ _ _ _ F Hin) as (line & _ & Hp).
  destruct (process_pair_ok_checks _ _ _ _ _ _ Hp) as (Hc & Hh).
  apply strain_check_ok in Hc as (vi & vj & Hi & Hj & D).
  apply hgt_check_ok in Hh as (_ & Hr).
  exists i, j, vi, vj. auto.
Qed.

Lemma completed_run_sound_witness :
  exists i j vi vj,
    Py.split comma "X,Y" = [i; j]
    /\ loc_cols (taxa_tab Scenario.T) i tax_levels = Ok [vi]
    /\ loc_cols (taxa_tab Scenario.T) j tax_levels = Ok [vj]
    /\ first_difference_at_strain vi vj
    /\ in_index (j ++ "," ++ i) (hgt_tab Scenario.T) = false.
Proof.
  apply (completed_run_sound "jaccard" Scenario.T "X,Y").
  - exact scenario_unique_labels.
  - reflexivity.
  - simpl. now left.
Defined.

Lemma format_check_one_comma_witness :
  exists pairs, taxa_combinations ["X,Y"; "Y,Z"] = Ok pairs.
Proof.
  apply (proj2 (format_check_one_comma ["X,Y"; "Y,Z"])).
  repeat constructor.
Defined.

Lemma strain_check_order_independent_witness :
  strain_check (taxa_tab Scenario.T) "Y" "X" "Y,X" = Ok tt.
Proof.
  apply (proj1 (strain_check_order_independent (taxa_tab Scenario.T)
                  "X" "Y" "X,Y" "Y,X")).
  reflexivity.
Defined.
